(** * CNPJ enrichment script: identifier normalisation, check digits,
    registry client with bounded retries, deduplicated lookup loop and merge.

  Shallow embedding of [scripts/consultar_cnpjs_colab.py].

  Conventions of the embedding.
  - A Python [str] is a Rocq [string].  Texts that hold accented letters
    keep their UTF-8 bytes; only equality, concatenation and prefix tests are
    applied to them, and UTF-8 preserves all three.  The class [\d] is
    ['0'..'9'] and whitespace is the ASCII whitespace: decimal digits and
    blanks outside ASCII are not part of the model.  The functions that look
    at single characters ([to_str], [apenas_digitos], [normaliza_cnpj],
    [cnpj_valido]) are therefore those of the script on texts of ASCII
    characters ([texto_ascii]), and what is proved of the digits, the length
    or the blanks of a cell is stated for such texts.
  - Python exceptions are explicit: a function that can raise returns an
    [option] or a [Res].
  - The registry (and the clock) is an explicit world: [requests.get] is a
    transition of an arbitrary state machine, and every request and every
    [time.sleep] is appended to a trace. *)

From Stdlib Require Import ZArith QArith Ascii String Numbers.DecimalString.
From stdpp Require Import gmap strings list sorting.

Open Scope Z_scope.

(* ===================================================================== *)
(** * Python built-ins used by the script *)
(* ===================================================================== *)

Module Py.

(** [str(n)] for an integer. *)
Definition str_int (n : Z) : string :=
  NilZero.string_of_int (Z.to_int n).

(** One decimal digit, ['0'..'9']: the class [\d], and the characters
    [int] reads, among the ASCII characters. *)
Definition is_digit (c : ascii) : bool :=
  (48 <=? Z.of_nat (nat_of_ascii c)) && (Z.of_nat (nat_of_ascii c) <=? 57).

(** [int(c)] for a one-character string: [None] stands for [ValueError]. *)
Definition int_char (c : ascii) : option Z :=
  if is_digit c then Some (Z.of_nat (nat_of_ascii c) - 48) else None.

(** [int(s)] for a string of decimal digits, most significant first;
    digits are accumulated left to right. *)
Fixpoint int_digits_from (acc : Z) (s : string) : Z :=
  match s with
  | EmptyString => acc
  | String c r => int_digits_from (10 * acc + (Z.of_nat (nat_of_ascii c) - 48)) r
  end.

Definition int_digits (s : string) : Z := int_digits_from 0 s.

(** Whitespace removed by [str.strip()]: the ASCII part of the table,
    [\t \n \v \f \r], the separators [0x1c..0x1f] and the space. *)
Definition is_space (c : ascii) : bool :=
  let n := Z.of_nat (nat_of_ascii c) in
  ((9 <=? n) && (n <=? 13)) || ((28 <=? n) && (n <=? 32)).

Fixpoint lstrip (s : string) : string :=
  match s with
  | EmptyString => EmptyString
  | String c r => if is_space c then lstrip r else s
  end.

(** Right strip: a character is dropped when it is blank and everything
    after it has been dropped as well. *)
Fixpoint rstrip (s : string) : string :=
  match s with
  | EmptyString => EmptyString
  | String c r =>
      match rstrip r with
      | EmptyString => if is_space c then EmptyString else String c EmptyString
      | r' => String c r'
      end
  end.

Definition strip (s : string) : string := rstrip (lstrip s).

(** [c * n] for a one-character string [c]. *)
Fixpoint repeat_char (c : ascii) (n : nat) : string :=
  match n with
  | O => EmptyString
  | S k => String c (repeat_char c k)
  end.

(** [s.zfill(width)]: zeros go after a leading sign, and a string that is
    already long enough is returned as it is. *)
Definition zfill (width : nat) (s : string) : string :=
  let fill := repeat_char "0" (width - String.length s) in
  match s with
  | String c r =>
      if (Ascii.eqb c "+" || Ascii.eqb c "-")%bool
      then String c (fill +:+ r) else fill +:+ s
  | EmptyString => fill
  end.

(** [s[:n]] and [s[-n:]] for [n >= 0] (for [s[-n:]], [n > 0]). *)
Fixpoint prefix (n : nat) (s : string) : string :=
  match n, s with
  | S k, String c r => String c (prefix k r)
  | _, _ => EmptyString
  end.

Fixpoint skip (n : nat) (s : string) : string :=
  match n, s with
  | S k, String _ r => skip k r
  | _, _ => s
  end.

Definition suffix (n : nat) (s : string) : string :=
  skip (String.length s - n) s.

(** [s.startswith(p)]. *)
Fixpoint startswith (p s : string) : bool :=
  match p, s with
  | EmptyString, _ => true
  | String a p', String b s' => Ascii.eqb a b && startswith p' s'
  | String _ _, EmptyString => false
  end.


(** [sep.join(parts)]. *)
Fixpoint join (sep : string) (parts : list string) : string :=
  match parts with
  | [] => EmptyString
  | [p] => p
  | p :: rest => p +:+ sep +:+ join sep rest
  end.

End Py.

(* ===================================================================== *)
(** * [float] / [int] / [str] on a scientific-notation literal *)
(* ===================================================================== *)

(** [str(int(float(s)))] for a literal [I(.F)?e+X].  [float] rounds the
  decimal value to the nearest binary64 number, ties to even; [int] of an
  infinite float raises [OverflowError], rendered as [None].  The value
  [m * 10^(X - |F|)] is kept as an exact fraction [p / q]. *)
Module Float64.

(** Round-half-even of [num / den], for [den > 0]. *)
Definition round_half_even (num den : Z) : Z :=
  let fl := num / den in
  let r2 := 2 * (num mod den) in
  if r2 <? den then fl
  else if den <? r2 then fl + 1
  else if Z.even fl then fl else fl + 1.

(** [floor (log2 (p / q))] for [p, q > 0]. *)
Definition floor_log2 (p q : Z) : Z :=
  let l := Z.log2 p - Z.log2 q in
  let ge := if 0 <=? l then q * 2 ^ l <=? p else q <=? p * 2 ^ (- l) in
  if ge then l else l - 1.

(** The binary64 number nearest to [p / q], as [mant * 2^u]. *)
Definition nearest (p q : Z) : Z * Z :=
  let u := Z.max (floor_log2 p q - 52) (-1074) in
  (round_half_even (p * 2 ^ Z.max (- u) 0) (q * 2 ^ Z.max u 0), u).

(** [int(float(p / q))]; [None] when the float is infinite. *)
Definition int_float (p q : Z) : option Z :=
  if p =? 0 then Some 0
  else
    let '(mant, u) := nearest p q in
    if 0 <=? u
    then (if 2 ^ 1024 <=? mant * 2 ^ u then None else Some (mant * 2 ^ u))
    else Some (mant / 2 ^ (- u)).

End Float64.

(* ===================================================================== *)
(** * Identifier normaliser: [to_str], [apenas_digitos], [normaliza_cnpj] *)
(* ===================================================================== *)

(** Longest prefix of decimal digits, and what follows it. *)
Fixpoint span_digits (s : string) : string * string :=
  match s with
  | EmptyString => (EmptyString, EmptyString)
  | String c r =>
      if Py.is_digit c
      then let '(d, rest) := span_digits r in (String c d, rest)
      else (EmptyString, s)
  end.

Definition nonempty (s : string) : bool :=
  match s with EmptyString => false | _ => true end.

(** The tail [[eE]\+\d+] of the pattern, anchored at the end of the text. *)
Definition match_expoente (i f r : string) : option (string * string * string) :=
  match r with
  | String c (String "+" r') =>
      if (Ascii.eqb c "e" || Ascii.eqb c "E")%bool then
        let '(x, r'') := span_digits r' in
        if (nonempty x && negb (nonempty r''))%bool then Some (i, f, x) else None
      else None
  | _ => None
  end.

(** [re.fullmatch(r"\d+(?:\.\d+)?[eE]\+\d+", s)]: the integer part, the
    fraction (empty when absent) and the exponent of the literal. *)
Definition fullmatch_cientifica (s : string) : option (string * string * string) :=
  let '(i, r1) := span_digits s in
  if nonempty i then
    match r1 with
    | String "." r2 =>
        let '(f, r3) := span_digits r2 in
        if nonempty f then match_expoente i f r3 else None
    | _ => match_expoente i EmptyString r1
    end
  else None.

(** [str(int(float(s)))] on a matched literal. *)
Definition str_int_float (i f x : string) : option string :=
  let m := Py.int_digits (i +:+ f) in
  let k := Py.int_digits x - Z.of_nat (String.length f) in
  Py.str_int <$> Float64.int_float (m * 10 ^ Z.max k 0) (10 ^ Z.max (- k) 0).

(** [to_str(x)]; [None] is Python's [None], [Some t] a value whose [str] is [t]. *)
Definition to_str (x : option string) : string :=
  match x with
  | None => EmptyString
  | Some t =>
      let s := Py.strip t in
      match fullmatch_cientifica s with
      | Some (i, f, e) =>
          match str_int_float i f e with
          | Some s' => s'
          | None => s
          end
      | None => s
      end
  end.

(** [re.sub(r"\D", "", s or "")], on a text of ASCII characters. *)
Fixpoint apenas_digitos (s : string) : string :=
  match s with
  | EmptyString => EmptyString
  | String c r =>
      if Py.is_digit c then String c (apenas_digitos r) else apenas_digitos r
  end.

Definition normaliza_cnpj (s : option string) : string :=
  Py.zfill 14 (apenas_digitos (to_str s)).

(* ===================================================================== *)
(** * Check-digit validator: [cnpj_valido] *)
(* ===================================================================== *)

(** [sum(int(n) * p for n, p in zip(nums, pesos))]. *)
Fixpoint soma_ponderada (nums : string) (pesos : list Z) : option Z :=
  match nums, pesos with
  | String n r, p :: ps =>
      v ← Py.int_char n;
      rest ← soma_ponderada r ps;
      Some (v * p + rest)
  | _, _ => Some 0
  end.

(** The inner function [dv]. *)
Definition dv (nums : string) (pesos : list Z) : option string :=
  soma ← soma_ponderada nums pesos;
  let r := soma mod 11 in
  Some (if r <? 2 then "0" else Py.str_int (11 - r)).

Definition p1 : list Z := [5; 4; 3; 2; 9; 8; 7; 6; 5; 4; 3; 2].
Definition p2 : list Z := 6 :: p1.

(** [cnpj_valido(cnpj)]; [None] would be an exception escaping the function. *)
Definition cnpj_valido (cnpj : string) : option bool :=
  let cnpj := apenas_digitos cnpj in
  if negb (String.length cnpj =? 14)%nat then Some false
  else
    match cnpj with
    | EmptyString => None
    | String c0 _ =>
        if String.eqb cnpj (Py.repeat_char c0 14) then Some false
        else
          d1 ← dv (Py.prefix 12 cnpj) p1;
          d2 ← dv (Py.prefix 12 cnpj +:+ d1) p2;
          Some (String.eqb (Py.suffix 2 cnpj) (d1 +:+ d2))
    end.

(* ===================================================================== *)
(** * The check digits as the specification words them *)
(* ===================================================================== *)

(** Every character of [s] satisfies [P]. *)
Fixpoint all_chars (P : ascii -> bool) (s : string) : bool :=
  match s with
  | EmptyString => true
  | String c r => P c && all_chars P r
  end.

(** All the characters of [s] are one and the same character. *)
Definition repunit (s : string) : Prop :=
  ∃ c, s = Py.repeat_char c (String.length s).

Module Spec.

(** The digits of a digit string, as numbers. *)
Fixpoint digit_values (s : string) : list Z :=
  match s with
  | EmptyString => []
  | String c r => (Z.of_nat (nat_of_ascii c) - 48) :: digit_values r
  end.

Fixpoint weighted_sum (ds ws : list Z) : Z :=
  match ds, ws with
  | d :: ds', w :: ws' => d * w + weighted_sum ds' ws'
  | _, _ => 0
  end.

(** Remainder modulo 11 of the weighted sum; [0] if it is below 2, else
    [11 - remainder]. *)
Definition check_digit (ds ws : list Z) : Z :=
  let r := weighted_sum ds ws mod 11 in
  if r <? 2 then 0 else 11 - r.

Definition weights1 : list Z := [5; 4; 3; 2; 9; 8; 7; 6; 5; 4; 3; 2].
Definition weights2 : list Z := [6; 5; 4; 3; 2; 9; 8; 7; 6; 5; 4; 3; 2].

Definition first_check (s : string) : Z :=
  check_digit (take 12 (digit_values s)) weights1.

Definition second_check (s : string) : Z :=
  check_digit (take 12 (digit_values s) ++ [first_check s]) weights2.

Definition digit_char (d : Z) : ascii := ascii_of_nat (Z.to_nat (48 + d)).

(** The two check digits, in order, as text. *)
Definition check_digits (s : string) : string :=
  String (digit_char (first_check s))
    (String (digit_char (second_check s)) EmptyString).

End Spec.


(* ===================================================================== *)
(** * Values, exceptions and the registry's replies *)
(* ===================================================================== *)

(** What [r.json()] can return: [None], a boolean, an integer, a float
    (named by its [repr]), a text, a list or a dict.  A dict is the list of
    its items; [dict_get] reads the first binding of a key. *)
#[warnings="-register-all"]
Inductive json : Type :=
| JNull
| JBool (b : bool)
| JInt (n : Z)
| JFloat (repr : string)
| JStr (s : string)
| JList (items : list json)
| JDict (items : list (string * json)).

(** Truth value of an object, as [if x:] and [x or y] test it. *)
Definition truthy (v : json) : bool :=
  match v with
  | JNull => false
  | JBool b => b
  | JInt n => negb (n =? 0)
  | JFloat r => negb (String.eqb r "0.0" || String.eqb r "-0.0")
  | JStr s => nonempty s
  | JList l => match l with [] => false | _ => true end
  | JDict d => match d with [] => false | _ => true end
  end.

(** [x or y]. *)
Definition py_or (x y : json) : json := if truthy x then x else y.

(** [d.get(k, padrao)]. *)
Fixpoint dict_get (d : list (string * json)) (k : string) (padrao : json) : json :=
  match d with
  | [] => padrao
  | (k', v) :: rest => if String.eqb k' k then v else dict_get rest k padrao
  end.

(** The value bound to a key, if any. *)
Fixpoint dict_lookup (d : list (string * json)) (k : string) : option json :=
  match d with
  | [] => None
  | (k', v) :: rest => if String.eqb k' k then Some v else dict_lookup rest k
  end.

Inductive exn : Type :=
| AttributeError
| TypeError
| IndexError
| KeyError (chave : string)
| ValueError (descr : string).

(** Outcome of a computation: a value, an exception that escapes, or no
    answer within the fuel given to a loop. *)
Inductive Res (A : Type) : Type :=
| Ok (a : A)
| Raise (e : exn)
| Diverge.

Arguments Ok {A} a.
Arguments Raise {A} e.
Arguments Diverge {A}.

Definition res_bind {A B} (m : Res A) (f : A → Res B) : Res B :=
  match m with
  | Ok a => f a
  | Raise e => Raise e
  | Diverge => Diverge
  end.

Notation "'try!' x ':=' m 'in' k" := (res_bind m (λ x, k))
  (at level 10, x name, m at level 100, k at level 200, only parsing).

(** What calling [r.json()] does: it returns a value, or raises; the flag
    tells whether the exception is a [requests.RequestException] (as the
    decoding error of recent versions of the library is). *)
Inductive JsonOutcome : Type :=
| JsonValue (v : json)
| JsonRaises (is_request_exception : bool) (descr : string).

Record Response : Type := {
  status_code : Z;
  json_result : JsonOutcome
}.

(** What [requests.get] does: it returns a response or raises a
    [requests.RequestException] whose [str] is [descr]. *)
Inductive Reply : Type :=
| Responded (r : Response)
| TransportError (descr : string).

(** One record per identifier; every key of the dict the script builds. *)
Record LookupResult : Type := {
  CNPJ : string;
  razao_social : json;
  nome_fantasia : json;
  cnae_principal : json;
  descricao_cnae : json;
  cnae_secundario_1 : json;
  descricao_cnae_secundario_1 : json;
  porte : json;
  capital_social : json;
  situacao_cadastral : json;
  data_situacao_cadastral : json;
  logradouro : json;
  numero : json;
  complemento : json;
  bairro : json;
  municipio : json;
  uf : json;
  cep : json;
  endereco_formatado : json;
  email : json;
  telefone_1 : json;
  telefone_2 : json
}.

(** The record the script writes out in full at each of its error returns:
    the identifier, a status text in the name field, every other field [""]. *)
Definition registro_vazio (cnpj nome : string) : LookupResult := {|
  CNPJ := cnpj;
  razao_social := JStr nome;
  nome_fantasia := JStr "";
  cnae_principal := JStr "";
  descricao_cnae := JStr "";
  cnae_secundario_1 := JStr "";
  descricao_cnae_secundario_1 := JStr "";
  porte := JStr "";
  capital_social := JStr "";
  situacao_cadastral := JStr "";
  data_situacao_cadastral := JStr "";
  logradouro := JStr ""; numero := JStr ""; complemento := JStr "";
  bairro := JStr ""; municipio := JStr ""; uf := JStr ""; cep := JStr "";
  endereco_formatado := JStr "";
  email := JStr ""; telefone_1 := JStr ""; telefone_2 := JStr ""
|}.

(** Every field but the identifier and the name holds the empty text. *)
Definition outros_campos_vazios (r : LookupResult) : Prop :=
  nome_fantasia r = JStr "" ∧ cnae_principal r = JStr ""
  ∧ descricao_cnae r = JStr "" ∧ cnae_secundario_1 r = JStr ""
  ∧ descricao_cnae_secundario_1 r = JStr "" ∧ porte r = JStr ""
  ∧ capital_social r = JStr "" ∧ situacao_cadastral r = JStr ""
  ∧ data_situacao_cadastral r = JStr "" ∧ logradouro r = JStr ""
  ∧ numero r = JStr "" ∧ complemento r = JStr "" ∧ bairro r = JStr ""
  ∧ municipio r = JStr "" ∧ uf r = JStr "" ∧ cep r = JStr ""
  ∧ endereco_formatado r = JStr "" ∧ email r = JStr ""
  ∧ telefone_1 r = JStr "" ∧ telefone_2 r = JStr "".

(** Configuration constants of the script. *)
Definition TIMEOUT : Z := 15.
Definition SLEEP_ENTRE_CHAMADAS : Q := 15 # 100.
Definition MAX_RETRIES : nat := 3.
Definition BACKOFF_BASE : Q := 8 # 10.

(** [BACKOFF_BASE * (2 ** (tentativas - 1))]. *)
Definition espera (tentativas : nat) : Q :=
  (BACKOFF_BASE * inject_Z (2 ^ (Z.of_nat tentativas - 1)))%Q.

Definition url_de (cnpj : string) : string :=
  "https://brasilapi.com.br/api/cnpj/v1/" +:+ cnpj.

(** The statuses of the retry branch. *)
Definition status_retentavel (s : Z) : bool :=
  (s =? 429) || (s =? 500) || (s =? 502) || (s =? 503) || (s =? 504).

(** What the run does to the outside: requests and sleeps, in order.
    [EvConsulta] is not an effect of the code: it marks each entry into
    [consulta_brasilapi], so that calls can be counted. *)
Inductive Event : Type :=
| EvConsulta (cnpj : string)
| EvGet (url : string)
| EvSleep (segundos : Q).

Definition is_consulta (cnpj : string) (ev : Event) : bool :=
  match ev with EvConsulta c => String.eqb c cnpj | _ => false end.

(* ===================================================================== *)
(** * Registry client: [_endereco_formatado] and [consulta_brasilapi] *)
(* ===================================================================== *)

Section Registry.

(** The registry is any deterministic state machine answering requests. *)
Variable World : Type.
Variable requests_get : string → World → Reply * World.

(** Python's [format(v, "")] on the values that are not texts. *)
Variable py_format : json → string.

(** What an f-string prints for a value. *)
Definition fmt (v : json) : string :=
  match v with
  | JStr s => s
  | _ => py_format v
  end.

Definition as_str (v : json) : option string :=
  match v with JStr s => Some s | _ => None end.

(** [sep.join(parts)]: [TypeError] unless every item is a text. *)
Definition join_json (sep : string) (parts : list json) : Res string :=
  match mapM as_str parts with
  | Some ss => Ok (Py.join sep ss)
  | None => Raise TypeError
  end.

Definition _endereco_formatado (data : list (string * json)) : Res string :=
  let log := dict_get data "logradouro" (JStr "") in
  let num := dict_get data "numero" (JStr "") in
  let comp := dict_get data "complemento" (JStr "") in
  let bairro := dict_get data "bairro" (JStr "") in
  let mun := dict_get data "municipio" (JStr "") in
  let uf := dict_get data "uf" (JStr "") in
  let cep := dict_get data "cep" (JStr "") in
  let partes := filter (λ p, truthy p = true) [log; num; comp; bairro] in
  try! cidade_uf := join_json " - " (filter (λ p, truthy p = true) [mun; uf]) in
  let partes := partes ++ (if nonempty cidade_uf then [JStr cidade_uf] else []) in
  let partes := partes ++ (if truthy cep then [JStr ("CEP " +:+ fmt cep)] else []) in
  join_json ", " (filter (λ p, truthy p = true) partes).

(** The body of the [status_code == 200] branch, from the value [r.json()]
    returned. *)
Definition monta_registro (cnpj : string) (v : json) : Res LookupResult :=
  match py_or v (JDict []) with
  | JDict data =>
      let secs := py_or (dict_get data "cnaes_secundarios" JNull) (JList []) in
      let '(cnae_sec_1, cnae_sec_1_desc) :=
        match secs with
        | JList (JDict sec0 :: _) =>
            (py_or (dict_get sec0 "codigo" (JStr "")) (JStr ""),
             py_or (dict_get sec0 "descricao" (JStr "")) (JStr ""))
        | _ => (JStr "", JStr "")
        end in
      let situacao :=
        py_or (dict_get data "descricao_situacao_cadastral" (JStr ""))
              (dict_get data "situacao_cadastral" (JStr "")) in
      let data_sit := dict_get data "data_situacao_cadastral" (JStr "") in
      try! endereco := _endereco_formatado data in
      Ok {| CNPJ := cnpj;
            razao_social := dict_get data "razao_social" (JStr "");
            nome_fantasia := dict_get data "nome_fantasia" (JStr "");
            cnae_principal := dict_get data "cnae_fiscal" (JStr "");
            descricao_cnae := dict_get data "cnae_fiscal_descricao" (JStr "");
            cnae_secundario_1 := cnae_sec_1;
            descricao_cnae_secundario_1 := cnae_sec_1_desc;
            porte := dict_get data "porte" (JStr "");
            capital_social := dict_get data "capital_social" (JStr "");
            situacao_cadastral := situacao;
            data_situacao_cadastral := data_sit;
            logradouro := dict_get data "logradouro" (JStr "");
            numero := dict_get data "numero" (JStr "");
            complemento := dict_get data "complemento" (JStr "");
            bairro := dict_get data "bairro" (JStr "");
            municipio := dict_get data "municipio" (JStr "");
            uf := dict_get data "uf" (JStr "");
            cep := dict_get data "cep" (JStr "");
            endereco_formatado := JStr endereco;
            email := dict_get data "email" (JStr "");
            telefone_1 := dict_get data "ddd_telefone_1" (JStr "");
            telefone_2 := dict_get data "ddd_telefone_2" (JStr "") |}
  | _ => Raise AttributeError
  end.

(** [try: msg = r.json().get("message", padrao) / except Exception: msg =
    na_excecao], as the f-string then prints [msg].  A value that is not a
    dict has no [get]: that [AttributeError] is caught like the others. *)
Definition mensagem (padrao na_excecao : string) (r : Response) : string :=
  match json_result r with
  | JsonValue (JDict d) => fmt (dict_get d "message" (JStr padrao))
  | JsonValue _ => na_excecao
  | JsonRaises _ _ => na_excecao
  end.

Definition http_de (r : Response) : string :=
  "HTTP " +:+ Py.str_int (status_code r).

(** State of a run: the registry and the trace so far. *)
Record St : Type := { world : World; trace : list Event }.

(** Computations with state and exceptions. *)
Definition M (A : Type) : Type := St → Res A * St.

Definition ret {A} (a : A) : M A := λ st, (Ok a, st).

Definition bind {A B} (m : M A) (f : A → M B) : M B :=
  λ st,
    match m st with
    | (Ok a, st') => f a st'
    | (Raise e, st') => (Raise e, st')
    | (Diverge, st') => (Diverge, st')
    end.

Definition lift {A} (r : Res A) : M A := λ st, (r, st).

Definition emit (ev : Event) : M unit :=
  λ st, (Ok tt, {| world := world st; trace := trace st ++ [ev] |}).

(** [requests.get(url, timeout=TIMEOUT)]. *)
Definition http_get (url : string) : M Reply :=
  λ st,
    let '(rep, w') := requests_get url (world st) in
    (Ok rep, {| world := w'; trace := trace st ++ [EvGet url] |}).

(** [time.sleep(q)]. *)
Definition sleep (q : Q) : M unit := emit (EvSleep q).

Notation "'let!' x ':=' m 'in' k" := (bind m (λ x, k))
  (at level 10, x name, m at level 100, k at level 200, only parsing).

(** The replies to [n] successive requests for [url], and the registry they
    leave behind. *)
Fixpoint respostas (n : nat) (url : string) (w : World) : list Reply * World :=
  match n with
  | O => ([], w)
  | S k =>
      let '(rep, w1) := requests_get url w in
      let '(reps, w') := respostas k url w1 in
      (rep :: reps, w')
  end.

(** The [while True] loop of [consulta_brasilapi], one iteration per unit
    of fuel; [tentativas] is the loop's counter. *)
Fixpoint consulta_loop (fuel : nat) (cnpj : string) (tentativas : nat)
  : M LookupResult :=
  match fuel with
  | O => lift Diverge
  | S fuel' =>
      (* the two retry paths: count the attempt, give up or sleep and loop *)
      let nova_tentativa (desistencia : string) : M LookupResult :=
        let tentativas := S tentativas in
        if (MAX_RETRIES <? tentativas)%nat
        then ret (registro_vazio cnpj desistencia)
        else
          let! _ := sleep (espera tentativas) in
          consulta_loop fuel' cnpj tentativas in
      let! rep := http_get (url_de cnpj) in
      match rep with
      | Responded r =>
          if status_code r =? 200 then
            match json_result r with
            | JsonValue v => lift (monta_registro cnpj v)
            | JsonRaises true e => nova_tentativa ("Erro de rede: " +:+ e)
            | JsonRaises false e => lift (Raise (ValueError e))
            end
          else if status_code r =? 404 then
            ret (registro_vazio cnpj
                   ("Não encontrado: "
                    +:+ mensagem "Não encontrado" "Não encontrado" r))
          else if status_retentavel (status_code r) then
            nova_tentativa ("Erro após retries: " +:+ mensagem "" (http_de r) r)
          else
            ret (registro_vazio cnpj ("Erro: " +:+ mensagem "" (http_de r) r))
      | TransportError e => nova_tentativa ("Erro de rede: " +:+ e)
      end
  end.

(** The state after one more request for [cnpj]. *)
Definition apos_get (cnpj : string) (st : St) (w' : World) : St :=
  {| world := w'; trace := trace st ++ [EvGet (url_de cnpj)] |}.

(** The state after one more request for [cnpj] and the back-off sleep. *)
Definition apos_espera (cnpj : string) (t : nat) (st : St) (w' : World)
  : St :=
  {| world := w';
     trace := trace st ++ [EvGet (url_de cnpj); EvSleep (espera (S t))] |}.

(** One of the two retry paths, from a state where the request is done. *)
Definition desfecho_tentativa (fuel : nat) (cnpj : string) (t : nat)
    (st : St) (w' : World) (desistencia : string)
  : Res LookupResult * St :=
  if (MAX_RETRIES <? S t)%nat
  then (Ok (registro_vazio cnpj desistencia), apos_get cnpj st w')
  else consulta_loop fuel cnpj (S t) (apos_espera cnpj t st w').

(** [consulta_brasilapi(cnpj)].  The counter grows at every iteration that
    loops, and the loop is left once it exceeds [MAX_RETRIES]: the fuel
    [MAX_RETRIES + 1] is never used up ([consulta_loop_fuel]). *)
Definition consulta_brasilapi (cnpj : string) : M LookupResult :=
  let! _ := emit (EvConsulta cnpj) in
  consulta_loop (S MAX_RETRIES) cnpj 0.

(* ===================================================================== *)
(** * Enrichment pipeline: pre-processing, lookup loop, merge *)
(* ===================================================================== *)

(** A row of the table after pre-processing: the identifier column, the
    validity flag, and the other columns (not looked into, type [A]). *)
Record Linha (A : Type) : Type := {
  coluna_cnpj : string;
  outras : A;
  _CNPJ_VALIDO : bool
}.

Arguments coluna_cnpj {A} _.
Arguments outras {A} _.
Arguments _CNPJ_VALIDO {A} _.

(** A row of [df_final]: the left row and the matching right row; [None]
    is the row of missing values a left merge gives a key without match.
    Cells hold the values of the records as they are (the column types a
    frame infers are not modelled), and the other columns of the table are
    taken to bear names different from the keys of a record. *)
Record LinhaSaida (A : Type) : Type := {
  linha : Linha A;
  resultado : option LookupResult
}.

Arguments linha {A} _.
Arguments resultado {A} _.

(** The variables of the lookup loop: [resultados_map], [ok], [inval], [err]. *)
Record Contagem : Type := {
  resultados_map : gmap string LookupResult;
  ok : nat;
  inval : nat;
  err : nat
}.

Definition contagem_inicial : Contagem :=
  {| resultados_map := ∅; ok := 0; inval := 0; err := 0 |}.

Record Saida (A : Type) : Type := {
  df_final : list (LinhaSaida A);
  resumo : Contagem
}.

Arguments df_final {A} _.
Arguments resumo {A} _.

(** An exception of [cnpj_valido] escapes its caller. *)
Definition chama_cnpj_valido (cnpj : string) : Res bool :=
  match cnpj_valido cnpj with
  | Some b => Ok b
  | None => Raise (ValueError "cnpj_valido")
  end.

(** [df[COLUNA_CNPJ].map(normaliza_cnpj)], then
    [df["_CNPJ_VALIDO"] = df[COLUNA_CNPJ].map(cnpj_valido)]. *)
Fixpoint pre_processa {A} (df : list (option string * A)) : Res (list (Linha A)) :=
  match df with
  | [] => Ok []
  | (celula, resto) :: df' =>
      let cnpj := normaliza_cnpj celula in
      try! valido := chama_cnpj_valido cnpj in
      try! linhas := pre_processa df' in
      Ok ({| coluna_cnpj := cnpj; outras := resto; _CNPJ_VALIDO := valido |}
          :: linhas)
  end.

(** [sorted(set(lista_todos))]. *)
Definition lista_unicos (lista_todos : list string) : list string :=
  merge_sort String.le (elements (list_to_set lista_todos : gset string)).

(** [res["Razão Social"].startswith(("Erro", "Não encontrado"))]. *)
Definition comeca_com_erro (nome : string) : bool :=
  Py.startswith "Erro" nome || Py.startswith "Não encontrado" nome.

Definition registro_invalido (cnpj : string) : LookupResult :=
  registro_vazio cnpj "CNPJ inválido (DV)".

(** One iteration of [for cnpj in iterador]. *)
Definition passo (est : Contagem) (cnpj : string) : M Contagem :=
  let! valido := lift (chama_cnpj_valido cnpj) in
  if negb valido then
    ret {| resultados_map := <[cnpj := registro_invalido cnpj]> (resultados_map est);
           ok := ok est; inval := S (inval est); err := err est |}
  else
    let! res := consulta_brasilapi cnpj in
    let mapa := <[cnpj := res]> (resultados_map est) in
    match razao_social res with
    | JStr nome =>
        let est' :=
          if comeca_com_erro nome
          then {| resultados_map := mapa;
                  ok := ok est; inval := inval est; err := S (err est) |}
          else {| resultados_map := mapa;
                  ok := S (ok est); inval := inval est; err := err est |} in
        let! _ := sleep SLEEP_ENTRE_CHAMADAS in
        ret est'
    | _ => lift (Raise AttributeError)
    end.

(** The lookup loop over [lista_unicos]. *)
Fixpoint consultas (unicos : list string) (est : Contagem) : M Contagem :=
  match unicos with
  | [] => ret est
  | cnpj :: resto =>
      let! est' := passo est cnpj in
      consultas resto est'
  end.

(** [[resultados_map[c] for c in lista_unicos]], the rows of [df_result]. *)
Fixpoint df_result (mapa : gmap string LookupResult) (unicos : list string)
  : Res (list LookupResult) :=
  match unicos with
  | [] => Ok []
  | c :: resto =>
      match mapa !! c with
      | Some r =>
          try! rs := df_result mapa resto in
          Ok (r :: rs)
      | None => Raise (KeyError c)
      end
  end.

(** The right rows that join a left row. *)
Definition correspondentes {A} (direita : list LookupResult) (l : Linha A)
  : list LookupResult :=
  filter (λ r, CNPJ r = coluna_cnpj l) direita.

Definition junta {A} (direita : list LookupResult) (l : Linha A)
  : list (LinhaSaida A) :=
  match correspondentes direita l with
  | [] => [{| linha := l; resultado := None |}]
  | rs => map (λ r, {| linha := l; resultado := Some r |}) rs
  end.

(** [df.merge(df_result, how="left", left_on=COLUNA_CNPJ, right_on="CNPJ")]:
    left rows in their order, each with every right row of the same key, or
    with missing values when there is none.  A frame built from an empty list
    of records has no column ["CNPJ"], and the merge raises [KeyError]. *)
Definition merge_left {A} (df : list (Linha A)) (direita : list LookupResult)
  : Res (list (LinhaSaida A)) :=
  match direita with
  | [] => Raise (KeyError "CNPJ")
  | _ => Ok (flat_map (junta direita) df)
  end.

(** The script from pre-processing to [df_final] and the summary counters. *)
Definition processa {A} (df : list (option string * A)) : M (Saida A) :=
  let! df1 := lift (pre_processa df) in
  let lista_todos := map coluna_cnpj df1 in
  let unicos := lista_unicos lista_todos in
  let! est := consultas unicos contagem_inicial in
  let! direita := lift (df_result (resultados_map est) unicos) in
  let! final := lift (merge_left df1 direita) in
  ret {| df_final := final; resumo := est |}.

End Registry.

Arguments coluna_cnpj {A} _.
Arguments outras {A} _.
Arguments _CNPJ_VALIDO {A} _.
Arguments linha {A} _.
Arguments resultado {A} _.
Arguments df_final {A} _.
Arguments resumo {A} _.
Arguments respostas {World} _ _ _ _.
Arguments ret {World A} _ _.
Arguments bind {World A B} _ _ _.
Arguments lift {World A} _ _.
Arguments emit {World} _ _.
Arguments sleep {World} _ _.
Arguments http_get {World} _ _ _.
Arguments consulta_loop {World} _ _ _ _ _ _.
Arguments consulta_brasilapi {World} _ _ _ _.
Arguments apos_get {World} _ _ _.
Arguments apos_espera {World} _ _ _ _.
Arguments desfecho_tentativa {World} _ _ _ _ _ _ _ _.
Arguments passo {World} _ _ _ _ _.
Arguments consultas {World} _ _ _ _ _.
Arguments processa {World} _ _ {A} _ _.
Arguments St _ : clear implicits.
Arguments world {World} _.
Arguments trace {World} _.

(* ===================================================================== *)
(** * Replies that let the run finish *)
(* ===================================================================== *)

(** A text, or a value that [if x:] skips. *)
Definition texto_ou_falso (v : json) : bool :=
  match v with
  | JStr _ => true
  | _ => negb (truthy v)
  end.

Definition campos_de_endereco : list string :=
  ["logradouro"; "numero"; "complemento"; "bairro"; "municipio"; "uf"].

(** A body of a 200 response from which the record is built without
    exception, and whose name is a text. *)
Definition corpo_regular (v : json) : bool :=
  match py_or v (JDict []) with
  | JDict d =>
      forallb (λ k, texto_ou_falso (dict_get d k (JStr ""))) campos_de_endereco
      && match dict_get d "razao_social" (JStr "") with
         | JStr _ => true
         | _ => false
         end
  | _ => false
  end.

Definition resposta_regular (rep : Reply) : bool :=
  match rep with
  | Responded r =>
      if status_code r =? 200 then
        match json_result r with
        | JsonValue v => corpo_regular v
        | JsonRaises b _ => b
        end
      else true
  | TransportError _ => true
  end.

(** A registry all of whose replies are regular. *)
Definition registro_regular {World : Type}
    (requests_get : string → World → Reply * World) : Prop :=
  ∀ url w, resposta_regular (requests_get url w).1 = true.


(** A reply after which the loop counts an attempt and, while the budget
    lasts, sleeps and asks again: a retryable status, a transport failure, or
    a 200 whose body raises a [RequestException] when decoded. *)
Definition repete (rep : Reply) : bool :=
  match rep with
  | Responded r =>
      if status_code r =? 200 then
        match json_result r with
        | JsonRaises true _ => true
        | _ => false
        end
      else if status_code r =? 404 then false
      else status_retentavel (status_code r)
  | TransportError _ => true
  end.


(** The trace of [k] attempts that were answered by a retryable status, the
    counter being [t] before the first: a request, then the back-off sleep. *)
Fixpoint tentativas_falhas (url : string) (t k : nat) : list Event :=
  match k with
  | O => []
  | S k' => EvGet url :: EvSleep (espera (S t)) :: tentativas_falhas url (S t) k'
  end.

(** The sleeps of a trace, in order. *)
Definition sleeps (evs : list Event) : list Q :=
  omap (λ ev, match ev with EvSleep q => Some q | _ => None end) evs.

(* ===================================================================== *)
(** * Simulated registries, for the worked cases *)
(* ===================================================================== *)

(** [str] of the values that are neither texts nor containers.  The [repr]
    of a list or a dict needs Python's escaping of texts and is left out
    (empty text): no worked case formats one. *)
Definition format_escalar (v : json) : string :=
  match v with
  | JNull => "None"
  | JBool true => "True"
  | JBool false => "False"
  | JInt n => Py.str_int n
  | JFloat r => r
  | JStr s => s
  | JList _ => ""
  | JDict _ => ""
  end.

(** A registry whose state is the number of requests answered so far. *)
Definition responde_por_ordem (f : nat → string → Reply) (url : string) (n : nat)
  : Reply * nat :=
  (f n url, S n).

Definition resposta (status : Z) (corpo : json) : Reply :=
  Responded {| status_code := status; json_result := JsonValue corpo |}.


Definition empresa_acme : json :=
  JDict [("razao_social", JStr "ACME LTDA"); ("cnae_fiscal", JInt 6201501);
         ("logradouro", JStr "RUA UM"); ("numero", JStr "10");
         ("municipio", JStr "SAO PAULO"); ("uf", JStr "SP");
         ("cep", JStr "01000000");
         ("cnaes_secundarios",
          JList [JDict [("codigo", JInt 6202300); ("descricao", JStr "Software")]])].

(** Always 200 with the same company. *)
Definition registro_constante : string → nat → Reply * nat :=
  responde_por_ordem (λ _ _, resposta 200 empresa_acme).


(** Always the given reply. *)
Definition sempre (rep : Reply) : string → nat → Reply * nat :=
  responde_por_ordem (λ _ _, rep).

Definition inicio : St nat := {| world := 0%nat; trace := [] |}.

Definition zeros14 : string := "00000000000000".

(** The published valid identifier. *)
Definition fixture : string := "11222333000181".

(* ===================================================================== *)
(** * Counting: lookups in a trace, identifiers and rows by outcome *)
(* ===================================================================== *)

(** How many times [consulta_brasilapi] was entered for [c]. *)
Definition n_consultas (c : string) (evs : list Event) : nat :=
  length (filter (λ ev, is_consulta c ev = true) evs).

(** A request for [url]. *)
Definition is_pedido (url : string) (ev : Event) : bool :=
  match ev with EvGet u => String.eqb u url | _ => false end.

(** How many requests for [url] were made. *)
Definition n_pedidos (url : string) (evs : list Event) : nat :=
  length (filter (λ ev, is_pedido url ev = true) evs).

(** The identifier fails validation. *)
Definition e_invalido (c : string) : bool :=
  match cnpj_valido c with
  | Some b => negb b
  | None => false
  end.

(** The name recorded for an identifier, when it is a text. *)
Definition nome_de (mapa : gmap string LookupResult) (c : string) : option string :=
  mapa !! c ≫= λ r, as_str (razao_social r).

(** A valid identifier whose name starts with "Erro" or "Não encontrado". *)
Definition e_erro (mapa : gmap string LookupResult) (c : string) : bool :=
  negb (e_invalido c)
  && match nome_de mapa c with
     | Some nome => comeca_com_erro nome
     | None => false
     end.

(** A valid identifier whose name starts with neither. *)
Definition e_sucesso (mapa : gmap string LookupResult) (c : string) : bool :=
  negb (e_invalido c)
  && match nome_de mapa c with
     | Some nome => negb (comeca_com_erro nome)
     | None => false
     end.

(** In how many of the three classes (invalid, success, error) an
    identifier falls. *)
Definition n_classes (mapa : gmap string LookupResult) (c : string) : nat :=
  ((if e_invalido c then 1 else 0)
   + (if e_sucesso mapa c then 1 else 0)
   + (if e_erro mapa c then 1 else 0))%nat.

(** How many items of [l] satisfy [p]. *)
Definition conta {X} (p : X → bool) (l : list X) : nat :=
  length (filter (λ x, p x = true) l).

(** The name carried by an output row. *)
Definition nome_da_linha {A} (row : LinhaSaida A) : option string :=
  resultado row ≫= λ r, as_str (razao_social r).

(** Rows whose name starts with neither "Erro" nor "Não encontrado". *)
Definition linha_sem_erro {A} (row : LinhaSaida A) : bool :=
  match nome_da_linha row with
  | Some nome => negb (comeca_com_erro nome)
  | None => false
  end.

(** Rows of an identifier that fails validation. *)
Definition linha_invalida {A} (row : LinhaSaida A) : bool :=
  negb (_CNPJ_VALIDO (linha row)).

(** Rows whose name starts with "Erro" or "Não encontrado". *)
Definition linha_com_erro {A} (row : LinhaSaida A) : bool :=
  match nome_da_linha row with
  | Some nome => comeca_com_erro nome
  | None => false
  end.

(** The row that [df_final] holds for a pre-processed row, once every key
    has exactly one record. *)
Definition linha_final {A} (mapa : gmap string LookupResult) (l : Linha A)
  : LinhaSaida A :=
  {| linha := l; resultado := mapa !! coluna_cnpj l |}.

(** A table of two rows with the same identifier, written in two ways. *)
Definition tabela_duplicada : list (option string * nat) :=
  [(Some "11.222.333/0001-81", 1%nat); (Some "11222333000181", 2%nat)].

(** A table with a repeated valid identifier, an invalid one and a blank. *)
Definition tabela_mista : list (option string * nat) :=
  [(Some "11.222.333/0001-81", 1%nat); (Some "123", 2%nat);
   (Some "11222333000181", 3%nat); (None, 4%nat)].

(** Of a completed run: the counters [(ok, inval, err)] of the summary, and
    the numbers of rows of [df_final] without error text, of invalid
    identifier, and with error text. *)
Definition contadores_e_linhas {A} (r : Res (Saida A))
  : option ((nat * nat * nat) * (nat * nat * nat)) :=
  match r with
  | Ok out =>
      Some ((ok (resumo out), inval (resumo out), err (resumo out)),
            (conta linha_sem_erro (df_final out),
             conta linha_invalida (df_final out),
             conta linha_com_erro (df_final out)))
  | _ => None
  end.

(* ===================================================================== *)
(** * Further vocabulary for the properties of the code *)
(* ===================================================================== *)

(** The exponent mark of the pattern, [[eE]]. *)
Definition e_marca (c : ascii) : bool := Ascii.eqb c "e" || Ascii.eqb c "E".

(** The text [I(.F)?e+X] with integer part [i], fraction [f] (none when
    empty), mark [c] and exponent [x]. *)
Definition literal_cientifico (i f : string) (c : ascii) (x : string) : string :=
  i +:+ (if nonempty f then "." +:+ f else "") +:+ String c ("+" +:+ x).

(** A text that is empty or starts with a character [strip] keeps. *)
Definition inicio_firme (s : string) : bool :=
  match s with
  | EmptyString => true
  | String c _ => negb (Py.is_space c)
  end.

(** A character that [str] of an integer can print. *)
Definition digito_ou_sinal (c : ascii) : bool :=
  Py.is_digit c || Ascii.eqb c "-".

(** The identifiers for which [consulta_brasilapi] was entered, in the order
    of the calls. *)
Definition consultas_de (evs : list Event) : list string :=
  omap (λ ev, match ev with EvConsulta c => Some c | _ => None end) evs.

(** The counters after an identifier was looked up and given a record named
    [nome]: the name decides between error and success. *)
Definition conta_nome (est : Contagem) (cnpj : string) (reg : LookupResult)
    (nome : string) : Contagem :=
  if comeca_com_erro nome
  then {| resultados_map := <[cnpj := reg]> (resultados_map est);
          ok := ok est; inval := inval est; err := S (err est) |}
  else {| resultados_map := <[cnpj := reg]> (resultados_map est);
          ok := S (ok est); inval := inval est; err := err est |}.

(** A company whose legal name begins with the word "Erro". *)
Definition empresa_erro : json :=
  JDict [("razao_social", JStr "Erro Zero Informatica LTDA")].

(** A table without a valid identifier. *)
Definition tabela_invalida : list (option string * nat) :=
  [(Some "123", 1%nat); (None, 2%nat); (Some "11.111.111/1111-11", 3%nat);
   (Some "00000000000123", 4%nat)].

(** A text of ASCII characters only.  There the byte is the character:
    [String.length] is [len], [Py.is_digit] is the class [\d] of [re] and
    the digits [int] reads, and [Py.is_space] is the whitespace of
    [str.strip].  The properties that speak of the digits, the length or the
    blanks of an arbitrary cell are stated for such texts. *)
Definition texto_ascii (s : string) : bool :=
  all_chars (λ c, (nat_of_ascii c <? 128)%nat) s.





(* ===================================================================== *)
(** * Lemmas on the string helpers *)
(* ===================================================================== *)

Lemma length_app_string (a b : string) :
  String.length (a +:+ b) = (String.length a + String.length b)%nat.
Proof. induction a as [|c a IH]; simpl; [done | by rewrite IH]. Qed.

Lemma length_repeat_char c n : String.length (Py.repeat_char c n) = n.
Proof. induction n as [|n IH]; simpl; [done | by rewrite IH]. Qed.

Lemma all_chars_app P (a b : string) :
  all_chars P (a +:+ b) = all_chars P a && all_chars P b.
Proof.
  induction a as [|c a IH]; simpl; [done |].
  rewrite IH. by destruct (P c).
Qed.

Lemma all_chars_repeat P c n :
  P c = true → all_chars P (Py.repeat_char c n) = true.
Proof. intros Hc. induction n as [|n IH]; simpl; [done | by rewrite Hc, IH]. Qed.

Lemma apenas_digitos_digits s : all_chars Py.is_digit (apenas_digitos s) = true.
Proof.
  induction s as [|c s IH]; simpl; [done |].
  destruct (Py.is_digit c) eqn:Hc; simpl; [by rewrite Hc, IH | done].
Qed.

Lemma apenas_digitos_id s :
  all_chars Py.is_digit s = true → apenas_digitos s = s.
Proof.
  induction s as [|c s IH]; simpl; [done |].
  intros [Hc Hs]%andb_prop. rewrite Hc. f_equal. by apply IH.
Qed.

Lemma apenas_digitos_none s :
  all_chars (λ c, negb (Py.is_digit c)) s = true → apenas_digitos s = EmptyString.
Proof.
  induction s as [|c s IH]; simpl; [done |].
  intros [Hc Hs]%andb_prop. apply negb_true_iff in Hc. rewrite Hc. by apply IH.
Qed.





Lemma zfill_digits n s :
  all_chars Py.is_digit s = true →
  Py.zfill n s = Py.repeat_char "0" (n - String.length s) +:+ s.
Proof.
  destruct s as [|c s]; simpl.
  - intros _. generalize (Py.repeat_char "0" (n - 0)). intros t.
    induction t as [|a t IH]; [done |]. unfold String.app in *. simpl. by rewrite <- IH.
  - intros [Hc _]%andb_prop.
    destruct (Ascii.eqb_spec c "+") as [->|_]; [done |].
    by destruct (Ascii.eqb_spec c "-") as [->|_].
Qed.

(* ===================================================================== *)
(** * Lemmas on [dv] and [cnpj_valido] *)
(* ===================================================================== *)

Lemma digit_values_app (a b : string) :
  Spec.digit_values (a +:+ b) = Spec.digit_values a ++ Spec.digit_values b.
Proof. induction a as [|c a IH]; simpl; [done | by rewrite <- IH]. Qed.

Lemma digit_values_prefix n s :
  Spec.digit_values (Py.prefix n s) = take n (Spec.digit_values s).
Proof.
  revert s. induction n as [|n IH]; intros [|c s]; simpl; try done.
  by rewrite IH.
Qed.

Lemma all_chars_prefix P n s :
  all_chars P s = true → all_chars P (Py.prefix n s) = true.
Proof.
  revert s. induction n as [|n IH]; intros [|c s]; simpl; try done.
  intros [Hc Hs]%andb_prop. by rewrite Hc, IH.
Qed.

Lemma soma_ponderada_spec nums pesos :
  all_chars Py.is_digit nums = true →
  soma_ponderada nums pesos = Some (Spec.weighted_sum (Spec.digit_values nums) pesos).
Proof.
  revert pesos. induction nums as [|c nums IH]; intros [|p ps]; simpl; try done.
  intros [Hc Hs]%andb_prop. unfold Py.int_char. rewrite Hc. simpl.
  by rewrite (IH ps Hs).
Qed.

(** A check digit lies in [0..9], so its text is a single character. *)
Lemma check_digit_range ds ws : 0 <= Spec.check_digit ds ws <= 9.
Proof.
  unfold Spec.check_digit.
  pose proof (Z.mod_pos_bound (Spec.weighted_sum ds ws) 11 ltac:(lia)).
  destruct (Z.ltb_spec (Spec.weighted_sum ds ws mod 11) 2); lia.
Qed.

Lemma str_int_digit d :
  0 <= d <= 9 → Py.str_int d = String (Spec.digit_char d) EmptyString.
Proof.
  intros Hd.
  assert (d = 0 ∨ d = 1 ∨ d = 2 ∨ d = 3 ∨ d = 4 ∨ d = 5 ∨ d = 6 ∨ d = 7
          ∨ d = 8 ∨ d = 9) as Hcases by lia.
  repeat destruct Hcases as [-> | Hcases]; try reflexivity. by subst.
Qed.

Lemma digit_char_is_digit d :
  0 <= d <= 9 → Py.is_digit (Spec.digit_char d) = true.
Proof.
  intros Hd.
  assert (d = 0 ∨ d = 1 ∨ d = 2 ∨ d = 3 ∨ d = 4 ∨ d = 5 ∨ d = 6 ∨ d = 7
          ∨ d = 8 ∨ d = 9) as Hcases by lia.
  repeat destruct Hcases as [-> | Hcases]; try reflexivity. by subst.
Qed.

Lemma digit_values_digit_char d :
  0 <= d <= 9 →
  Spec.digit_values (String (Spec.digit_char d) EmptyString) = [d].
Proof.
  intros Hd.
  assert (d = 0 ∨ d = 1 ∨ d = 2 ∨ d = 3 ∨ d = 4 ∨ d = 5 ∨ d = 6 ∨ d = 7
          ∨ d = 8 ∨ d = 9) as Hcases by lia.
  repeat destruct Hcases as [-> | Hcases]; try reflexivity. by subst.
Qed.

(** On a digit string, [dv] returns the text of the specification's digit. *)
Lemma dv_spec nums pesos :
  all_chars Py.is_digit nums = true →
  dv nums pesos =
    Some (String (Spec.digit_char (Spec.check_digit (Spec.digit_values nums) pesos))
            EmptyString).
Proof.
  intros Hd. unfold dv. rewrite soma_ponderada_spec by done. simpl.
  f_equal. unfold Spec.check_digit.
  set (r := Spec.weighted_sum (Spec.digit_values nums) pesos mod 11).
  assert (0 <= r < 11) by (apply Z.mod_pos_bound; lia).
  destruct (Z.ltb_spec r 2); [reflexivity |].
  apply str_int_digit. lia.
Qed.

Lemma bind_Some {A B} (x : A) (f : A → option B) : (Some x ≫= f) = f x.
Proof. reflexivity. Qed.

(** What [cnpj_valido] computes on a digit string of length 14 that is not
    a repunit. *)
Lemma cnpj_valido_digits s :
  String.length s = 14%nat →
  all_chars Py.is_digit s = true →
  ¬ repunit s →
  cnpj_valido s = Some (String.eqb (Py.suffix 2 s) (Spec.check_digits s)).
Proof.
  intros Hlen Hdig Hrep. unfold cnpj_valido.
  rewrite (apenas_digitos_id s Hdig), Hlen. simpl negb. cbv iota.
  destruct s as [|c0 s'] eqn:Hs; [done |]. rewrite <- Hs in *.
  destruct (String.eqb_spec s (Py.repeat_char c0 14)) as [Heq | _].
  { exfalso. apply Hrep. exists c0. by rewrite Hlen. }
  pose proof (all_chars_prefix _ 12 s Hdig) as Hpre.
  rewrite (dv_spec _ p1 Hpre), bind_Some, digit_values_prefix.
  change (Spec.check_digit (take 12 (Spec.digit_values s)) p1)
    with (Spec.first_check s).
  pose proof (check_digit_range (take 12 (Spec.digit_values s)) Spec.weights1) as Hr1.
  change (Spec.check_digit _ Spec.weights1) with (Spec.first_check s) in Hr1.
  rewrite dv_spec.
  2:{ rewrite all_chars_app, Hpre. simpl.
      by rewrite (digit_char_is_digit _ Hr1). }
  rewrite bind_Some, digit_values_app, digit_values_prefix,
    (digit_values_digit_char _ Hr1).
  reflexivity.
Qed.

(* ===================================================================== *)
(** * Normaliser and validator: the properties *)
(* ===================================================================== *)



(** C4. Every text made of the same character fourteen times is rejected.
    Fourteen zeros show that the arithmetic alone would not do it: both check
    digits of "000000000000" are "0". *)
Theorem cnpj_valido_repunit (c : ascii) :
  cnpj_valido (Py.repeat_char c 14) = Some false
  ∧ dv "000000000000" p1 = Some "0"
  ∧ dv "0000000000000" p2 = Some "0"
  ∧ Py.suffix 2 (Py.repeat_char "0" 14) = "00".
Proof.
  split; [| by repeat split].
  unfold cnpj_valido.
  destruct (Py.is_digit c) eqn:Hc.
  - rewrite apenas_digitos_id by (by apply all_chars_repeat).
    rewrite length_repeat_char. simpl negb. cbv iota.
    remember (Py.repeat_char c 14) as t eqn:Et.
    destruct t as [|c0 t']; [simpl in Et; discriminate |].
    assert (c0 = c) as -> by (simpl in Et; congruence).
    by rewrite <- Et, String.eqb_refl.
  - rewrite apenas_digitos_none; [done |].
    apply all_chars_repeat. by rewrite Hc.
Qed.




(** C2. On a text of 14 decimal digits that is not a repunit, [cnpj_valido]
    returns (it does not raise) and its answer is [true] exactly when the last
    two characters are the two check digits of the specification: the first
    from the first 12 digits under the weights 5,4,3,2,9,8,7,6,5,4,3,2, the
    second from those 12 digits followed by the first check digit under
    6,5,4,3,2,9,8,7,6,5,4,3,2.  The two published fixtures behave as stated. *)
Theorem cnpj_valido_check_digits (s : string) :
  String.length s = 14%nat →
  all_chars Py.is_digit s = true →
  ¬ repunit s →
  (∃ b, cnpj_valido s = Some b)
  ∧ (cnpj_valido s = Some true ↔ Py.suffix 2 s = Spec.check_digits s)
  ∧ cnpj_valido "11222333000181" = Some true
  ∧ cnpj_valido "11222333000180" = Some false.
Proof.
  intros Hlen Hdig Hrep.
  rewrite (cnpj_valido_digits s Hlen Hdig Hrep).
  split; [by eexists |]. split; [| by split].
  destruct (String.eqb_spec (Py.suffix 2 s) (Spec.check_digits s)); split;
    intros; congruence.
Qed.

Lemma not_repunit_fixture : ¬ repunit fixture.
Proof. intros [c Hc]. vm_compute in Hc. congruence. Qed.

Lemma cnpj_valido_check_digits_witness :
  cnpj_valido fixture = Some true
  ∧ Py.suffix 2 fixture = Spec.check_digits fixture.
Proof.
  destruct (cnpj_valido_check_digits fixture eq_refl eq_refl not_repunit_fixture)
    as (_ & Hiff & Hfix & _).
  split; [exact Hfix | exact (proj1 Hiff Hfix)].
Defined.

(* ===================================================================== *)
(** * Building the record of a 200 response *)
(* ===================================================================== *)

Lemma dict_get_lookup d k padrao :
  dict_get d k padrao = default padrao (dict_lookup d k).
Proof.
  induction d as [|[k' v] d IH]; simpl; [done |].
  by destruct (String.eqb k' k).
Qed.

Lemma texto_ou_falso_truthy v :
  texto_ou_falso v = true → truthy v = true → is_Some (as_str v).
Proof.
  destruct v; simpl; intros H1 H2;
    solve [ discriminate | rewrite H2 in H1; discriminate | by eexists ].
Qed.

Lemma filter_truthy_textos (l : list json) :
  Forall (λ v, texto_ou_falso v = true) l →
  Forall (λ v, is_Some (as_str v)) (filter (λ p, truthy p = true) l).
Proof.
  induction 1 as [|v l Hv _ IH]; [constructor |].
  rewrite filter_cons. case_decide; [| done].
  constructor; [by apply texto_ou_falso_truthy | done].
Qed.

Lemma filter_textos (l : list json) :
  Forall (λ v, is_Some (as_str v)) l →
  Forall (λ v, is_Some (as_str v)) (filter (λ p, truthy p = true) l).
Proof.
  induction 1 as [|v l Hv _ IH]; [constructor |].
  rewrite filter_cons. case_decide; [by constructor | done].
Qed.

Lemma join_json_textos sep (l : list json) :
  Forall (λ v, is_Some (as_str v)) l → ∃ s, join_json sep l = Ok s.
Proof.
  intros Hl. unfold join_json.
  destruct (mapM as_str l) as [ss|] eqn:Hm; [by eexists |].
  exfalso. apply (mapM_is_Some_2 as_str) in Hl.
  rewrite Hm in Hl. by destruct Hl.
Qed.

Section RegistryFacts.

Context {World : Type}.
Variable requests_get : string → World → Reply * World.
Variable py_format : json → string.

Lemma endereco_regular (d : list (string * json)) :
  forallb (λ k, texto_ou_falso (dict_get d k (JStr ""))) campos_de_endereco = true →
  ∃ s, _endereco_formatado py_format d = Ok s.
Proof.
  intros H. simpl in H.
  repeat (apply andb_prop in H as [?H H]).
  unfold _endereco_formatado.
  destruct (join_json_textos " - "
    (filter (λ p, truthy p = true)
       [dict_get d "municipio" (JStr ""); dict_get d "uf" (JStr "")]))
    as [cidade_uf ->].
  { apply filter_truthy_textos. by repeat constructor. }
  simpl res_bind.
  apply join_json_textos, filter_textos.
  repeat apply Forall_app_2.
  - apply filter_truthy_textos. by repeat constructor.
  - destruct (nonempty cidade_uf); repeat constructor. by eexists.
  - destruct (truthy _); repeat constructor. by eexists.
Qed.

(** A regular body gives a record, keyed by the identifier asked for, whose
    name is the text found under ["razao_social"] (or [""]). *)
Lemma monta_registro_regular cnpj v :
  corpo_regular v = true →
  ∃ reg nome, monta_registro py_format cnpj v = Ok reg
    ∧ CNPJ reg = cnpj ∧ razao_social reg = JStr nome.
Proof.
  unfold corpo_regular, monta_registro.
  destruct (py_or v (JDict [])) as [| | | | | |d]; try discriminate.
  intros [Hend Hnome]%andb_prop.
  destruct (endereco_regular d Hend) as [s Hs]. rewrite Hs.
  destruct (dict_get d "razao_social" (JStr "")) as [| | | |nome| |] eqn:Hn;
    try discriminate.
  destruct (py_or (dict_get d "cnaes_secundarios" JNull) (JList []))
    as [| | | | |[|[| | | | | |sec0] ?]|]; simpl; rewrite ?Hn; by eauto.
Qed.

(** Whatever the body, a record that is built carries the identifier. *)
Lemma monta_registro_cnpj cnpj v reg :
  monta_registro py_format cnpj v = Ok reg → CNPJ reg = cnpj.
Proof.
  unfold monta_registro.
  destruct (py_or v (JDict [])) as [| | | | | |d]; try discriminate.
  destruct (py_or (dict_get d "cnaes_secundarios" JNull) (JList []))
    as [| | | | |[|[| | | | | |sec0] ?]|];
    destruct (_endereco_formatado py_format d); simpl;
    solve [ discriminate | by intros [= <-] ].
Qed.


End RegistryFacts.

(* ===================================================================== *)
(** * The retry loop of the registry client *)
(* ===================================================================== *)

Section ClientFacts.

Context {World : Type}.
Variable requests_get : string → World → Reply * World.
Variable py_format : json → string.

Abbreviation loop := (consulta_loop requests_get py_format).
Abbreviation consulta := (consulta_brasilapi requests_get py_format).
Abbreviation desfecho := (desfecho_tentativa requests_get py_format).

(** One iteration of the loop, by the reply received. *)
Lemma consulta_loop_step fuel cnpj t st rep w' :
  requests_get (url_de cnpj) (world st) = (rep, w') →
  loop (S fuel) cnpj t st =
    match rep with
    | Responded r =>
        if status_code r =? 200 then
          match json_result r with
          | JsonValue v => (monta_registro py_format cnpj v, apos_get cnpj st w')
          | JsonRaises true e =>
              desfecho fuel cnpj t st w' ("Erro de rede: " +:+ e)
          | JsonRaises false e => (Raise (ValueError e), apos_get cnpj st w')
          end
        else if status_code r =? 404 then
          (Ok (registro_vazio cnpj
                 ("Não encontrado: "
                  +:+ mensagem py_format "Não encontrado" "Não encontrado" r)),
           apos_get cnpj st w')
        else if status_retentavel (status_code r) then
          desfecho fuel cnpj t st w'
            ("Erro após retries: " +:+ mensagem py_format "" (http_de r) r)
        else
          (Ok (registro_vazio cnpj
                 ("Erro: " +:+ mensagem py_format "" (http_de r) r)),
           apos_get cnpj st w')
    | TransportError e =>
        desfecho fuel cnpj t st w' ("Erro de rede: " +:+ e)
    end.
Proof.
  intros Hget. cbn [consulta_loop]. unfold bind at 1, http_get at 1.
  rewrite Hget. unfold desfecho_tentativa, apos_get, apos_espera.
  assert (∀ d,
    (if (MAX_RETRIES <? S t)%nat
     then ret (registro_vazio cnpj d)
     else bind (sleep (espera (S t))) (λ _, loop fuel cnpj (S t)))
      {| world := w'; trace := trace st ++ [EvGet (url_de cnpj)] |}
    = (if (MAX_RETRIES <? S t)%nat
       then (Ok (registro_vazio cnpj d),
             {| world := w'; trace := trace st ++ [EvGet (url_de cnpj)] |})
       else loop fuel cnpj (S t)
              {| world := w';
                 trace := trace st ++ [EvGet (url_de cnpj); EvSleep (espera (S t))] |}))
    as Hnova.
  { intros d. destruct (MAX_RETRIES <? S t)%nat; [done |].
    unfold bind, sleep, emit. simpl. by rewrite <- app_assoc. }
  destruct rep as [r | e]; [| apply Hnova].
  destruct (status_code r =? 200).
  { destruct (json_result r) as [v | [] e]; [done | apply Hnova | done]. }
  destruct (status_code r =? 404); [done |].
  destruct (status_retentavel (status_code r)); [apply Hnova | done].
Qed.

(** The loop only appends requests and sleeps to the trace, and a record it
    returns is keyed by the identifier it was called with. *)
Lemma consulta_loop_efeitos fuel : ∀ cnpj t st res st',
  loop fuel cnpj t st = (res, st') →
  (∃ evs, trace st' = trace st ++ evs
          ∧ Forall (λ ev, ∀ c, is_consulta c ev = false) evs)
  ∧ (∀ reg, res = Ok reg → CNPJ reg = cnpj).
Proof.
  induction fuel as [|fuel IH]; intros cnpj t st res st' Hrun.
  { injection Hrun as <- <-. split; [| done].
    exists []. by rewrite app_nil_r. }
  destruct (requests_get (url_de cnpj) (world st)) as [rep w'] eqn:Hget.
  rewrite (consulta_loop_step _ _ _ _ _ _ Hget) in Hrun.
  assert (∀ reg, (res, st') = (Ok reg, apos_get cnpj st w') → CNPJ reg = cnpj →
    (∃ evs, trace st' = trace st ++ evs
            ∧ Forall (λ ev, ∀ c, is_consulta c ev = false) evs)
    ∧ (∀ reg, res = Ok reg → CNPJ reg = cnpj)) as Hfinal.
  { intros reg [= -> ->] Hreg. split; [| by intros ? [= <-]].
    exists [EvGet (url_de cnpj)]. split; [done | by repeat constructor]. }
  assert (∀ d, desfecho fuel cnpj t st w' d = (res, st') →
    (∃ evs, trace st' = trace st ++ evs
            ∧ Forall (λ ev, ∀ c, is_consulta c ev = false) evs)
    ∧ (∀ reg, res = Ok reg → CNPJ reg = cnpj)) as Hnova.
  { intros d. unfold desfecho_tentativa.
    destruct (MAX_RETRIES <? S t)%nat; intros Hd.
    - by apply (Hfinal (registro_vazio cnpj d)).
    - apply IH in Hd as [(evs & Htr & Hevs) Hreg]. split; [| done].
      exists ([EvGet (url_de cnpj); EvSleep (espera (S t))] ++ evs).
      split; [by rewrite Htr, app_assoc |].
      apply Forall_app_2; [by repeat constructor | done]. }
  destruct rep as [r | e]; [| by eapply Hnova].
  destruct (status_code r =? 200).
  { destruct (json_result r) as [v | [] e]; [| by eapply Hnova |].
    - injection Hrun as <- <-. split.
      + exists [EvGet (url_de cnpj)]. split; [done | by repeat constructor].
      + intros reg. apply monta_registro_cnpj.
    - injection Hrun as <- <-. split; [| done].
      exists [EvGet (url_de cnpj)]. split; [done | by repeat constructor]. }
  destruct (status_code r =? 404); [by eapply Hfinal |].
  destruct (status_retentavel (status_code r));
    [by eapply Hnova | by eapply Hfinal].
Qed.

(** The fuel is enough: with the counter at [t <= MAX_RETRIES] and more than
    [MAX_RETRIES - t] iterations allowed, the loop ends by itself. *)
Lemma consulta_loop_fuel fuel : ∀ cnpj t st,
  (t ≤ MAX_RETRIES)%nat → (MAX_RETRIES < t + fuel)%nat →
  (loop fuel cnpj t st).1 ≠ Diverge.
Proof.
  induction fuel as [|fuel IH]; intros cnpj t st Ht Hfuel; [lia |].
  destruct (requests_get (url_de cnpj) (world st)) as [rep w'] eqn:Hget.
  rewrite (consulta_loop_step _ _ _ _ _ _ Hget).
  assert (∀ d, (desfecho fuel cnpj t st w' d).1 ≠ Diverge) as Hnova.
  { intros d. unfold desfecho_tentativa.
    destruct (Nat.ltb_spec MAX_RETRIES (S t)); [done |].
    apply IH; lia. }
  destruct rep as [r | e]; [| apply Hnova].
  destruct (status_code r =? 200).
  { destruct (json_result r) as [v | [] e]; [| apply Hnova | done].
    simpl. unfold monta_registro.
    destruct (py_or v (JDict [])) as [| | | | | |d]; try done.
    destruct (py_or (dict_get d "cnaes_secundarios" JNull) (JList []))
      as [| | | | |[|[| | | | | |sec0] ?]|];
      unfold _endereco_formatado, join_json;
      repeat (destruct (mapM as_str _); simpl; try done). }
  destruct (status_code r =? 404); [done |].
  destruct (status_retentavel (status_code r)); [apply Hnova | done].
Qed.

(** [consulta_brasilapi] always ends: it returns a record or lets an
    exception escape. *)
Lemma consulta_brasilapi_termina cnpj st :
  (consulta cnpj st).1 ≠ Diverge.
Proof.
  unfold consulta_brasilapi, bind, emit.
  apply consulta_loop_fuel; unfold MAX_RETRIES; lia.
Qed.

End ClientFacts.

(* ===================================================================== *)
(** * Registry client: retries, terminal statuses, messages *)
(* ===================================================================== *)

Lemma sleeps_app (a b : list Event) : sleeps (a ++ b) = sleeps a ++ sleeps b.
Proof. apply omap_app. Qed.

Lemma sleeps_tentativas_falhas url k : ∀ t,
  sleeps (tentativas_falhas url t k) = map espera (seq (S t) k).
Proof.
  induction k as [|k IH]; intros t; [done |].
  simpl. unfold sleeps in *. simpl. by rewrite IH.
Qed.


Section ClientClaims.

Context {World : Type}.
Variable requests_get : string → World → Reply * World.
Variable py_format : json → string.

Abbreviation loop := (consulta_loop requests_get py_format).
Abbreviation consulta := (consulta_brasilapi requests_get py_format).
Abbreviation desfecho := (desfecho_tentativa requests_get py_format).

(** [k] replies in a row that call for another attempt, while the budget
    lasts, are [k] iterations that request, sleep [espera] of the new count,
    and loop. *)
Lemma consulta_loop_falhas k : ∀ fuel cnpj t (st : St World) reps w',
  respostas requests_get k (url_de cnpj) (world st) = (reps, w') →
  forallb repete reps = true →
  (t + k ≤ MAX_RETRIES)%nat →
  loop (k + fuel) cnpj t st =
    loop fuel cnpj (t + k)
      {| world := w';
         trace := trace st ++ tentativas_falhas (url_de cnpj) t k |}.
Proof.
  induction k as [|k IH]; intros fuel cnpj t st reps w' Hreps H503 Hk.
  { injection Hreps as <- <-. destruct st as [w tr]. simpl.
    by rewrite app_nil_r, Nat.add_0_r. }
  simpl in Hreps.
  destruct (requests_get (url_de cnpj) (world st)) as [rep w1] eqn:Hget.
  destruct (respostas requests_get k (url_de cnpj) w1) as [reps' w2] eqn:Hrest.
  injection Hreps as <- <-.
  simpl in H503. apply andb_prop in H503 as [Hrep H503].
  change (S k + fuel)%nat with (S (k + fuel)).
  assert (∃ d, loop (S (k + fuel)) cnpj t st = desfecho (k + fuel) cnpj t st w1 d)
    as [d ->].
  { rewrite (consulta_loop_step _ _ _ _ _ _ _ _ Hget).
    destruct rep as [r | e]; simpl in Hrep; [| by eexists].
    destruct (status_code r =? 200).
    { destruct (json_result r) as [v | [] e]; try done. by eexists. }
    destruct (status_code r =? 404); [done |]. rewrite Hrep. by eexists. }
  unfold desfecho_tentativa.
  destruct (Nat.ltb_spec MAX_RETRIES (S t)) as [Hlt | _]; [lia |].
  rewrite (IH fuel cnpj (S t) (apos_espera cnpj t st w1) reps' w2 Hrest H503)
    by lia.
  unfold apos_espera. simpl.
  by rewrite <- app_assoc, Nat.add_succ_r.
Qed.


(** C6. A response whose status is neither 200 nor one of the retryable
    ones ends the lookup at once: the iteration that receives it, whatever
    the attempt counter, returns after its request without sleeping or
    looping, so that a lookup answered this way makes one request and no
    sleep.  The record returned is the all-empty one named
    "Não encontrado: " + message for 404, "Erro: " + message otherwise, where
    the message is the text under ["message"] when the body has one. *)
Theorem consulta_status_terminal cnpj (st : St World) r w' :
  requests_get (url_de cnpj) (world st) = (Responded r, w') →
  status_code r ≠ 200 →
  status_retentavel (status_code r) = false →
  let nome :=
    if status_code r =? 404
    then "Não encontrado: " +:+ mensagem py_format "Não encontrado" "Não encontrado" r
    else "Erro: " +:+ mensagem py_format "" (http_de r) r in
  (∀ fuel t,
     loop (S fuel) cnpj t st =
       (Ok (registro_vazio cnpj nome),
        {| world := w'; trace := trace st ++ [EvGet (url_de cnpj)] |}))
  ∧ consulta cnpj st =
      (Ok (registro_vazio cnpj nome),
       {| world := w';
          trace := trace st ++ [EvConsulta cnpj; EvGet (url_de cnpj)] |})
  ∧ razao_social (registro_vazio cnpj nome) = JStr nome
  ∧ outros_campos_vazios (registro_vazio cnpj nome)
  ∧ (∀ d m padrao erro,
       json_result r = JsonValue (JDict d) →
       dict_lookup d "message" = Some (JStr m) →
       mensagem py_format padrao erro r = m).
Proof.
  intros Hget H200 Hret nome.
  split; [| split; [| split; [done | split; [by repeat split |]]]].
  - intros fuel t. rewrite (consulta_loop_step _ _ _ _ _ _ _ _ Hget).
    destruct (Z.eqb_spec (status_code r) 200) as [? | _]; [done |].
    rewrite Hret. unfold nome, apos_get.
    by destruct (status_code r =? 404).
  - unfold consulta_brasilapi, bind at 1, emit.
    rewrite (consulta_loop_step requests_get py_format MAX_RETRIES cnpj 0
               {| world := world st; trace := trace st ++ [EvConsulta cnpj] |}
               _ _ Hget).
    destruct (Z.eqb_spec (status_code r) 200) as [? | _]; [done |].
    rewrite Hret. unfold nome, apos_get. simpl.
    rewrite <- app_assoc. simpl.
    by destruct (status_code r =? 404).
  - intros d m padrao erro Hd Hm. unfold mensagem.
    by rewrite Hd, dict_get_lookup, Hm.
Qed.



End ClientClaims.

(* ===================================================================== *)
(** * Registry client: worked cases *)
(* ===================================================================== *)



Lemma consulta_status_terminal_witness :
  (consulta_brasilapi
     (sempre (resposta 404 (JDict [("message", JStr "CNPJ não encontrado")])))
     format_escalar fixture inicio)
  = (Ok (registro_vazio fixture "Não encontrado: CNPJ não encontrado"),
     {| world := 1%nat;
        trace := [EvConsulta fixture; EvGet (url_de fixture)] |})
  ∧ (consulta_brasilapi
       (sempre (resposta 400 (JDict [("message", JStr "CNPJ inválido")])))
       format_escalar fixture inicio)
    = (Ok (registro_vazio fixture "Erro: CNPJ inválido"),
       {| world := 1%nat;
          trace := [EvConsulta fixture; EvGet (url_de fixture)] |}).
Proof.
  split.
  - refine (proj1 (proj2 (consulta_status_terminal
                     (sempre (resposta 404 (JDict [("message", JStr "CNPJ não encontrado")])))
                     format_escalar fixture inicio _ _ eq_refl _ eq_refl))).
    vm_compute. discriminate.
  - refine (proj1 (proj2 (consulta_status_terminal
                     (sempre (resposta 400 (JDict [("message", JStr "CNPJ inválido")])))
                     format_escalar fixture inicio _ _ eq_refl _ eq_refl))).
    vm_compute. discriminate.
Defined.



(* ===================================================================== *)
(** * The distinct identifiers and the validator's totality *)
(* ===================================================================== *)

Lemma lista_unicos_NoDup l : NoDup (lista_unicos l).
Proof.
  unfold lista_unicos. rewrite merge_sort_Permutation. apply NoDup_elements.
Qed.

Lemma elem_of_lista_unicos l x : x ∈ lista_unicos l ↔ x ∈ l.
Proof.
  unfold lista_unicos.
  by rewrite merge_sort_Permutation, elem_of_elements, elem_of_list_to_set.
Qed.

Lemma length_lista_unicos l :
  length (lista_unicos l) = size (list_to_set l : gset string).
Proof. unfold lista_unicos. by rewrite merge_sort_Permutation. Qed.

Lemma lista_unicos_sorted l : Sorted String.le (lista_unicos l).
Proof. apply (Sorted_merge_sort String.le). Qed.

(** [cnpj_valido] raises on no input: the text it works on is made of digits
    only, so [int] succeeds, and [cnpj[0]] is read only when the length is 14. *)
Lemma cnpj_valido_total s : ∃ b, cnpj_valido s = Some b.
Proof.
  unfold cnpj_valido.
  pose proof (apenas_digitos_digits s) as Hdig.
  destruct (String.length (apenas_digitos s) =? 14)%nat eqn:Hlen; cbn [negb];
    [| by eexists].
  destruct (apenas_digitos s) as [|c0 t]; [done |].
  destruct (String.eqb _ _); [by eexists |].
  pose proof (all_chars_prefix _ 12 _ Hdig) as Hpre.
  rewrite (dv_spec _ p1 Hpre), bind_Some.
  rewrite dv_spec; [by eexists |].
  rewrite all_chars_app, Hpre. simpl.
  by rewrite digit_char_is_digit by apply check_digit_range.
Qed.

Lemma chama_cnpj_valido_total c :
  chama_cnpj_valido c = Ok (negb (e_invalido c)).
Proof.
  unfold chama_cnpj_valido, e_invalido.
  destruct (cnpj_valido_total c) as [b ->]. by rewrite negb_involutive.
Qed.

(* ===================================================================== *)
(** * Counting lemmas *)
(* ===================================================================== *)

Lemma n_consultas_app c a b :
  n_consultas c (a ++ b) = (n_consultas c a + n_consultas c b)%nat.
Proof. unfold n_consultas. by rewrite filter_app, length_app. Qed.

Lemma n_consultas_nenhuma c evs :
  Forall (λ ev, ∀ c, is_consulta c ev = false) evs → n_consultas c evs = 0%nat.
Proof.
  unfold n_consultas. induction 1 as [|ev evs Hev _ IH]; [done |].
  rewrite filter_cons_False; [done |]. by rewrite Hev.
Qed.

Lemma n_pedidos_app u a b :
  n_pedidos u (a ++ b) = (n_pedidos u a + n_pedidos u b)%nat.
Proof. unfold n_pedidos. by rewrite filter_app, length_app. Qed.

Lemma n_pedidos_get u url :
  n_pedidos u [EvGet url] = if decide (u = url) then 1%nat else 0%nat.
Proof.
  unfold n_pedidos. rewrite filter_cons, filter_nil. simpl.
  destruct (String.eqb_spec url u) as [-> | Hne];
    repeat case_decide; simpl; congruence.
Qed.

Lemma n_pedidos_sleep u q : n_pedidos u [EvSleep q] = 0%nat.
Proof. reflexivity. Qed.

Lemma n_pedidos_consulta u c : n_pedidos u [EvConsulta c] = 0%nat.
Proof. reflexivity. Qed.

Lemma append_inj_r (p a b : string) : p +:+ a = p +:+ b → a = b.
Proof.
  induction p as [|c p IH]; [done |].
  change (String c p +:+ ?x) with (String c (p +:+ x)).
  intros [= H]. by apply IH.
Qed.

Lemma url_de_inj c1 c2 : url_de c1 = url_de c2 → c1 = c2.
Proof. apply append_inj_r. Qed.

Lemma conta_cons {X} (p : X → bool) x l :
  conta p (x :: l) = ((if p x then 1 else 0) + conta p l)%nat.
Proof.
  unfold conta. rewrite filter_cons.
  destruct (p x); case_decide; simpl; congruence.
Qed.

Lemma conta_ext {X} (p q : X → bool) l :
  (∀ x, x ∈ l → p x = q x) → conta p l = conta q l.
Proof.
  induction l as [|x l IH]; intros H; [done |].
  rewrite !conta_cons, (H x) by left.
  rewrite IH; [done |]. intros y Hy. apply H. by right.
Qed.

Lemma e_sucesso_lookup m1 m2 c :
  m1 !! c = m2 !! c → e_sucesso m1 c = e_sucesso m2 c.
Proof. unfold e_sucesso, nome_de. by intros ->. Qed.

Lemma e_erro_lookup m1 m2 c :
  m1 !! c = m2 !! c → e_erro m1 c = e_erro m2 c.
Proof. unfold e_erro, nome_de. by intros ->. Qed.

(* ===================================================================== *)
(** * The lookup loop over the distinct identifiers *)
(* ===================================================================== *)

Section LoopFacts.

Context {World : Type}.
Variable requests_get : string → World → Reply * World.
Variable py_format : json → string.

Abbreviation consulta := (consulta_brasilapi requests_get py_format).
Abbreviation um_passo := (passo requests_get py_format).
Abbreviation laco := (consultas requests_get py_format).

(** A call of [consulta_brasilapi] is marked once in the trace, and a record
    it returns is keyed by its argument. *)
Lemma consulta_efeitos cnpj (st : St World) res st' :
  consulta cnpj st = (res, st') →
  (∃ evs, trace st' = trace st ++ evs
          ∧ ∀ c, n_consultas c evs = if decide (c = cnpj) then 1%nat else 0%nat)
  ∧ (∀ reg, res = Ok reg → CNPJ reg = cnpj).
Proof.
  unfold consulta_brasilapi, bind at 1, emit. intros H.
  apply consulta_loop_efeitos in H as [(evs & Htr & Hevs) Hreg].
  simpl in Htr. split; [| done].
  exists (EvConsulta cnpj :: evs). split.
  { by rewrite Htr, <- app_assoc. }
  intros c. change (EvConsulta cnpj :: evs) with ([EvConsulta cnpj] ++ evs).
  rewrite n_consultas_app, (n_consultas_nenhuma c evs Hevs), Nat.add_0_r.
  unfold n_consultas. rewrite filter_cons, filter_nil. simpl.
  destruct (String.eqb_spec cnpj c) as [-> | Hne];
    repeat case_decide; simpl; congruence.
Qed.

(** One iteration: at most one lookup, and only for the identifier at hand;
    when it completes, one record is stored under the identifier and exactly
    one counter grows by one, chosen by the identifier's class. *)
Lemma passo_spec est cnpj (st : St World) res st' :
  um_passo est cnpj st = (res, st') →
  (∃ evs, trace st' = trace st ++ evs
          ∧ ∀ c, (n_consultas c evs ≤ if decide (c = cnpj) then 1 else 0)%nat)
  ∧ (∀ est', res = Ok est' →
       (∃ r, resultados_map est' = <[cnpj := r]> (resultados_map est)
             ∧ CNPJ r = cnpj)
       ∧ inval est' = (inval est + if e_invalido cnpj then 1 else 0)%nat
       ∧ ok est' =
           (ok est + if e_sucesso (resultados_map est') cnpj then 1 else 0)%nat
       ∧ err est' =
           (err est + if e_erro (resultados_map est') cnpj then 1 else 0)%nat
       ∧ (ok est' + inval est' + err est'
          = S (ok est + inval est + err est))%nat).
Proof.
  unfold passo, bind at 1, lift at 1.
  rewrite chama_cnpj_valido_total, negb_involutive.
  destruct (e_invalido cnpj) eqn:Hinv.
  - (* invalid identifier: no lookup *)
    intros [= <- <-]. split.
    { exists []. split; [by rewrite app_nil_r |]. intros c. unfold n_consultas.
      simpl. lia. }
    intros est' [= <-]. cbn [resultados_map ok inval err].
    unfold e_sucesso, e_erro. rewrite Hinv. simpl.
    split; [by eexists |]. repeat split; lia.
  - (* valid identifier: one lookup *)
    unfold bind at 1.
    destruct (consulta cnpj st) as [r1 st1] eqn:Hc.
    apply consulta_efeitos in Hc as [(evs & Htr & Hevs) Hreg].
    assert (∀ c, (n_consultas c evs ≤ if decide (c = cnpj) then 1 else 0)%nat)
      as Hle by (intros c; by rewrite Hevs).
    destruct r1 as [reg | e |].
    2,3: by (intros [= <- <-]; split; [exists evs | done]).
    destruct (razao_social reg) as [| | | |nome| |] eqn:Hnome.
    1-4,6-7: by (intros [= <- <-]; split; [exists evs | done]).
    unfold bind, sleep, emit, ret. intros [= <- <-]. split.
    { exists (evs ++ [EvSleep SLEEP_ENTRE_CHAMADAS]). simpl. split.
      - by rewrite Htr, app_assoc.
      - intros c. rewrite n_consultas_app. specialize (Hle c).
        unfold n_consultas at 2. simpl. lia. }
    intros est' [= <-].
    assert (∀ m, nome_de (<[cnpj := reg]> m) cnpj = Some nome) as Hn.
    { intros m. unfold nome_de. rewrite lookup_insert_eq. simpl.
      by rewrite Hnome. }
    split.
    { exists reg. split; [by destruct (comeca_com_erro nome) | by apply Hreg]. }
    unfold e_sucesso, e_erro.
    destruct (comeca_com_erro nome) eqn:Hpre;
      cbn [resultados_map ok inval err]; rewrite Hinv, Hn, Hpre; simpl;
      repeat split; lia.
Qed.

(** The loop over a list of distinct identifiers. *)
Lemma consultas_spec unicos : ∀ est (st : St World) res st',
  NoDup unicos →
  laco unicos est st = (res, st') →
  (∃ evs, trace st' = trace st ++ evs
          ∧ ∀ c, (n_consultas c evs ≤ if decide (c ∈ unicos) then 1 else 0)%nat)
  ∧ (∀ est', res = Ok est' →
       dom (resultados_map est') = dom (resultados_map est) ∪ list_to_set unicos
       ∧ (∀ c, c ∉ unicos → resultados_map est' !! c = resultados_map est !! c)
       ∧ (∀ c, c ∈ unicos →
            ∃ r, resultados_map est' !! c = Some r ∧ CNPJ r = c)
       ∧ inval est' = (inval est + conta e_invalido unicos)%nat
       ∧ ok est' = (ok est + conta (e_sucesso (resultados_map est')) unicos)%nat
       ∧ err est' = (err est + conta (e_erro (resultados_map est')) unicos)%nat
       ∧ (ok est' + inval est' + err est'
          = ok est + inval est + err est + length unicos)%nat
       ∧ (∀ c, c ∈ unicos → n_classes (resultados_map est') c = 1%nat)).
Proof.
  induction unicos as [|cnpj resto IH]; intros est st res st' Hnd Hrun.
  { injection Hrun as <- <-. split.
    - exists []. split; [by rewrite app_nil_r |]. intros c.
      unfold n_consultas. simpl. lia.
    - intros est' [= <-]. unfold conta. simpl.
      repeat split; try lia;
        [by rewrite (right_id_L ∅ (∪))
        | by intros c []%elem_of_nil | by intros c []%elem_of_nil]. }
  apply NoDup_cons in Hnd as [Hfresh Hnd].
  cbn [consultas] in Hrun. unfold bind at 1 in Hrun.
  destruct (um_passo est cnpj st) as [r1 st1] eqn:Hpasso.
  apply passo_spec in Hpasso as [(evs1 & Htr1 & Hevs1) Hest1].
  assert (∀ c, (n_consultas c evs1 ≤ if decide (c ∈ cnpj :: resto) then 1 else 0)%nat)
    as Hle1.
  { intros c. specialize (Hevs1 c).
    destruct (decide (c = cnpj)) as [-> | Hne].
    - rewrite decide_True by left. done.
    - case_decide; lia. }
  destruct r1 as [est1 | e |].
  2,3: by (injection Hrun as <- <-; split; [exists evs1 | done]).
  destruct (Hest1 est1 eq_refl) as ((r & Hmap1 & Hr) & Hinv1 & Hok1 & Herr1 & Hsum1).
  apply IH in Hrun as [(evs2 & Htr2 & Hevs2) Hest']; [| done].
  split.
  { exists (evs1 ++ evs2). split; [by rewrite Htr2, Htr1, app_assoc |].
    intros c. rewrite n_consultas_app.
    specialize (Hevs1 c). specialize (Hevs2 c).
    destruct (decide (c = cnpj)) as [-> | Hne].
    - rewrite decide_True by left.
      rewrite decide_False in Hevs2 by done. lia.
    - destruct (decide (c ∈ resto)) as [Hin | Hnin].
      + rewrite decide_True by (by right). lia.
      + lia. }
  intros est' ->.
  destruct (Hest' est' eq_refl)
    as (Hdom & Hkeep & Hnew & Hinv & Hok & Herr & Hsum & Hclasse).
  assert (resultados_map est' !! cnpj = Some r) as Hcnpj.
  { rewrite (Hkeep cnpj Hfresh), Hmap1. apply lookup_insert_eq. }
  assert (resultados_map est' !! cnpj = resultados_map est1 !! cnpj) as Hsame
    by (by apply Hkeep).
  assert (n_classes (resultados_map est') cnpj = 1%nat) as Hum.
  { unfold n_classes.
    rewrite (e_sucesso_lookup _ _ _ Hsame), (e_erro_lookup _ _ _ Hsame). lia. }
  split; [| split; [| split]].
  - rewrite Hdom, Hmap1, dom_insert_L, list_to_set_cons.
    apply set_eq. intros c. rewrite !elem_of_union. tauto.
  - intros c Hc. apply not_elem_of_cons in Hc as [Hne Hc].
    rewrite (Hkeep c Hc), Hmap1. by apply lookup_insert_ne.
  - intros c [-> | Hc]%elem_of_cons; [by exists r | by apply Hnew].
  - rewrite !conta_cons.
    rewrite (e_sucesso_lookup _ _ _ Hsame), (e_erro_lookup _ _ _ Hsame).
    simpl length. repeat split; try lia.
    intros c [-> | Hc]%elem_of_cons; [done | by apply Hclasse].
Qed.

(** Requests: an iteration of the loop makes one, so a call of
    [consulta_brasilapi] makes at most [MAX_RETRIES + 1], all for the URL of
    its identifier. *)
Lemma consulta_loop_pedidos fuel : ∀ cnpj t (st : St World) res st',
  consulta_loop requests_get py_format fuel cnpj t st = (res, st') →
  ∃ evs, trace st' = trace st ++ evs
         ∧ ∀ u, (n_pedidos u evs ≤ if decide (u = url_de cnpj) then fuel else 0)%nat.
Proof.
  induction fuel as [|fuel IH]; intros cnpj t st res st' Hrun.
  { injection Hrun as <- <-. exists []. split; [by rewrite app_nil_r |].
    intros u. unfold n_pedidos. simpl. lia. }
  destruct (requests_get (url_de cnpj) (world st)) as [rep w'] eqn:Hget.
  rewrite (consulta_loop_step _ _ _ _ _ _ _ _ Hget) in Hrun.
  assert (∀ r0, (res, st') = (r0, apos_get cnpj st w') →
    ∃ evs, trace st' = trace st ++ evs
           ∧ ∀ u, (n_pedidos u evs
                   ≤ if decide (u = url_de cnpj) then S fuel else 0)%nat)
    as Hfinal.
  { intros r0 [= -> ->]. exists [EvGet (url_de cnpj)]. split; [done |].
    intros u. rewrite n_pedidos_get. case_decide; lia. }
  assert (∀ d, desfecho_tentativa requests_get py_format fuel cnpj t st w' d
               = (res, st') →
    ∃ evs, trace st' = trace st ++ evs
           ∧ ∀ u, (n_pedidos u evs
                   ≤ if decide (u = url_de cnpj) then S fuel else 0)%nat)
    as Hnova.
  { intros d. unfold desfecho_tentativa.
    destruct (MAX_RETRIES <? S t)%nat; intros Hd; [by eapply Hfinal |].
    apply IH in Hd as (evs & Htr & Hevs).
    exists ([EvGet (url_de cnpj)] ++ [EvSleep (espera (S t))] ++ evs).
    split; [rewrite Htr; unfold apos_espera; cbn [trace];
            by rewrite <- app_assoc |].
    intros u. rewrite !n_pedidos_app, n_pedidos_get, n_pedidos_sleep.
    specialize (Hevs u). case_decide; lia. }
  destruct rep as [r | e]; [| by eapply Hnova].
  destruct (status_code r =? 200).
  { destruct (json_result r) as [v | [] e];
      [by eapply Hfinal | by eapply Hnova | by eapply Hfinal]. }
  destruct (status_code r =? 404); [by eapply Hfinal |].
  destruct (status_retentavel (status_code r));
    [by eapply Hnova | by eapply Hfinal].
Qed.

Lemma passo_pedidos est cnpj (st : St World) res st' :
  um_passo est cnpj st = (res, st') →
  ∃ evs, trace st' = trace st ++ evs
         ∧ ∀ c, (n_pedidos (url_de c) evs
                 ≤ if decide (c = cnpj) then S MAX_RETRIES else 0)%nat.
Proof.
  unfold passo, bind at 1, lift at 1.
  rewrite chama_cnpj_valido_total, negb_involutive.
  destruct (e_invalido cnpj).
  { intros [= <- <-]. exists []. split; [by rewrite app_nil_r |].
    intros c. unfold n_pedidos. simpl. lia. }
  unfold bind at 1, consulta_brasilapi at 1, bind at 1, emit at 1.
  destruct (consulta_loop _ _ _ _ _ _) as [r1 st1] eqn:Hloop.
  apply consulta_loop_pedidos in Hloop as (evs & Htr & Hevs). simpl in Htr.
  assert (∀ c, (n_pedidos (url_de c) ([EvConsulta cnpj] ++ evs)
                ≤ if decide (c = cnpj) then S MAX_RETRIES else 0)%nat) as Hle.
  { intros c. rewrite n_pedidos_app, n_pedidos_consulta.
    specialize (Hevs (url_de c)).
    destruct (decide (c = cnpj)) as [-> | Hne].
    - by rewrite decide_True in Hevs.
    - rewrite decide_False in Hevs; [done |]. by intros ?%url_de_inj. }
  assert (trace st1 = trace st ++ [EvConsulta cnpj] ++ evs) as Htr1
    by (by rewrite Htr, <- app_assoc).
  destruct r1 as [reg | e |].
  2,3: by (intros [= <- <-]; eexists).
  destruct (razao_social reg) as [| | | |nome| |].
  1-4,6-7: by (intros [= <- <-]; eexists).
  unfold bind, sleep, emit, ret. intros [= <- <-].
  exists (([EvConsulta cnpj] ++ evs) ++ [EvSleep SLEEP_ENTRE_CHAMADAS]).
  cbn [trace]. split; [by rewrite Htr1, <- !app_assoc |].
  intros c. rewrite n_pedidos_app, n_pedidos_sleep. specialize (Hle c). lia.
Qed.

Lemma consultas_pedidos unicos : ∀ est (st : St World) res st',
  NoDup unicos →
  laco unicos est st = (res, st') →
  ∃ evs, trace st' = trace st ++ evs
         ∧ ∀ c, (n_pedidos (url_de c) evs ≤ S MAX_RETRIES)%nat.
Proof.
  assert (∀ unicos est (st : St World) res st',
    NoDup unicos →
    laco unicos est st = (res, st') →
    ∃ evs, trace st' = trace st ++ evs
           ∧ ∀ c, (n_pedidos (url_de c) evs
                   ≤ if decide (c ∈ unicos) then S MAX_RETRIES else 0)%nat)
    as Hgeral.
  { clear unicos.
    induction unicos as [|cnpj resto IH]; intros est st res st' Hnd Hrun.
    { injection Hrun as <- <-. exists []. split; [by rewrite app_nil_r |].
      intros c. unfold n_pedidos. simpl. lia. }
    apply NoDup_cons in Hnd as [Hfresh Hnd].
    cbn [consultas] in Hrun. unfold bind at 1 in Hrun.
    destruct (um_passo est cnpj st) as [r1 st1] eqn:Hpasso.
    apply passo_pedidos in Hpasso as (evs1 & Htr1 & Hevs1).
    assert (∀ c, (n_pedidos (url_de c) evs1
                  ≤ if decide (c ∈ cnpj :: resto) then S MAX_RETRIES else 0)%nat)
      as Hle1.
    { intros c. specialize (Hevs1 c).
      destruct (decide (c = cnpj)) as [-> | Hne].
      - by rewrite decide_True by left.
      - case_decide; lia. }
    destruct r1 as [est1 | e |].
    2,3: by (injection Hrun as <- <-; exists evs1).
    apply IH in Hrun as (evs2 & Htr2 & Hevs2); [| done].
    exists (evs1 ++ evs2). split; [by rewrite Htr2, Htr1, app_assoc |].
    intros c. rewrite n_pedidos_app.
    specialize (Hevs1 c). specialize (Hevs2 c).
    destruct (decide (c = cnpj)) as [-> | Hne].
    - rewrite decide_True by left.
      rewrite decide_False in Hevs2 by done. lia.
    - destruct (decide (c ∈ resto)) as [Hin | Hnin].
      + rewrite decide_True by (by right). lia.
      + lia. }
  intros est st res st' Hnd Hrun.
  destruct (Hgeral unicos est st res st' Hnd Hrun) as (evs & Htr & Hevs).
  exists evs. split; [done |]. intros c. specialize (Hevs c).
  case_decide; lia.
Qed.

(** The loop always ends: with the counters, or with an exception. *)
Lemma passo_termina est cnpj (st : St World) :
  (um_passo est cnpj st).1 ≠ Diverge.
Proof.
  unfold passo, bind at 1, lift at 1.
  rewrite chama_cnpj_valido_total, negb_involutive.
  destruct (e_invalido cnpj); [done |].
  unfold bind at 1.
  pose proof (consulta_brasilapi_termina requests_get py_format cnpj st) as Hfim.
  destruct (consulta cnpj st) as [[reg | e |] st1]; [| done | done].
  by destruct (razao_social reg).
Qed.

Lemma consultas_termina unicos : ∀ est (st : St World),
  (laco unicos est st).1 ≠ Diverge.
Proof.
  induction unicos as [|cnpj resto IH]; intros est st; [done |].
  cbn [consultas]. unfold bind at 1.
  pose proof (passo_termina est cnpj st) as Hfim.
  destruct (um_passo est cnpj st) as [[est1 | e |] st1]; [apply IH | done | done].
Qed.

End LoopFacts.

(* ===================================================================== *)
(** * Runs against a regular registry complete *)
(* ===================================================================== *)

Section RegularRuns.

Context {World : Type}.
Variable requests_get : string → World → Reply * World.
Variable py_format : json → string.
Hypothesis regular : registro_regular requests_get.

Abbreviation loop := (consulta_loop requests_get py_format).
Abbreviation consulta := (consulta_brasilapi requests_get py_format).
Abbreviation desfecho := (desfecho_tentativa requests_get py_format).
Abbreviation um_passo := (passo requests_get py_format).
Abbreviation laco := (consultas requests_get py_format).

Lemma consulta_loop_regular fuel : ∀ cnpj t (st : St World),
  (t ≤ MAX_RETRIES)%nat → (MAX_RETRIES < t + fuel)%nat →
  ∃ reg nome st', loop fuel cnpj t st = (Ok reg, st')
                  ∧ razao_social reg = JStr nome.
Proof.
  induction fuel as [|fuel IH]; intros cnpj t st Ht Hfuel; [lia |].
  destruct (requests_get (url_de cnpj) (world st)) as [rep w'] eqn:Hget.
  pose proof (regular (url_de cnpj) (world st)) as Hrep.
  rewrite Hget in Hrep. simpl in Hrep.
  rewrite (consulta_loop_step _ _ _ _ _ _ _ _ Hget).
  assert (∀ d, ∃ reg nome st', desfecho fuel cnpj t st w' d = (Ok reg, st')
                               ∧ razao_social reg = JStr nome) as Hnova.
  { intros d. unfold desfecho_tentativa.
    destruct (Nat.ltb_spec MAX_RETRIES (S t)); [by eexists _, _, _ |].
    apply IH; lia. }
  destruct rep as [r | e]; [| apply Hnova].
  cbn [resposta_regular] in Hrep.
  destruct (status_code r =? 200).
  { destruct (json_result r) as [v | b e].
    - destruct (monta_registro_regular py_format cnpj v Hrep)
        as (reg & nome & -> & _ & Hn). by eexists _, _, _.
    - rewrite Hrep. apply Hnova. }
  destruct (status_code r =? 404); [by eexists _, _, _ |].
  destruct (status_retentavel (status_code r)); [apply Hnova |].
  by eexists _, _, _.
Qed.

Lemma consulta_regular cnpj (st : St World) :
  ∃ reg nome st', consulta cnpj st = (Ok reg, st')
                  ∧ razao_social reg = JStr nome.
Proof.
  unfold consulta_brasilapi, bind, emit.
  apply consulta_loop_regular; unfold MAX_RETRIES; lia.
Qed.

Lemma passo_regular est cnpj (st : St World) :
  ∃ est' st', um_passo est cnpj st = (Ok est', st').
Proof.
  unfold passo, bind at 1, lift at 1.
  rewrite chama_cnpj_valido_total, negb_involutive.
  destruct (e_invalido cnpj); [by eexists _, _ |].
  unfold bind at 1.
  destruct (consulta_regular cnpj st) as (reg & nome & st1 & -> & ->).
  by eexists _, _.
Qed.

Lemma consultas_regular unicos : ∀ est (st : St World),
  ∃ est' st', laco unicos est st = (Ok est', st').
Proof.
  induction unicos as [|cnpj resto IH]; intros est st; [by eexists _, _ |].
  cbn [consultas]. unfold bind at 1.
  destruct (passo_regular est cnpj st) as (est1 & st1 & ->).
  apply IH.
Qed.

End RegularRuns.

(* ===================================================================== *)
(** * Pre-processing, [df_result] and the left merge *)
(* ===================================================================== *)

(** Pre-processing keeps the rows and their order; it never raises. *)
Lemma pre_processa_spec {A} (df : list (option string * A)) :
  ∃ df1, pre_processa df = Ok df1
    ∧ Forall2 (λ entrada l,
                 coluna_cnpj l = normaliza_cnpj entrada.1
                 ∧ outras l = entrada.2
                 ∧ cnpj_valido (coluna_cnpj l) = Some (_CNPJ_VALIDO l)) df df1.
Proof.
  induction df as [|[cel resto] df (df1 & IH & Hall)]; [by exists [] |].
  simpl. rewrite chama_cnpj_valido_total, IH. simpl.
  eexists. split; [done |]. constructor; [| done]. simpl.
  repeat split. unfold e_invalido.
  destruct (cnpj_valido_total (normaliza_cnpj cel)) as [b ->].
  by rewrite negb_involutive.
Qed.

(** [df_result] lists, in the order of the keys, the record of each key. *)
Lemma df_result_inv (mapa : gmap string LookupResult) unicos : ∀ rs,
  df_result mapa unicos = Ok rs →
  Forall2 (λ c r, mapa !! c = Some r) unicos rs.
Proof.
  induction unicos as [|c resto IH]; intros rs; simpl.
  { intros [= <-]. constructor. }
  destruct (mapa !! c) as [r|] eqn:Hc; [| done].
  destruct (df_result mapa resto) as [rs' | |]; simpl; try done.
  intros [= <-]. constructor; [done | by apply IH].
Qed.

Lemma df_result_total (mapa : gmap string LookupResult) unicos :
  (∀ c, c ∈ unicos → is_Some (mapa !! c)) →
  ∃ rs, df_result mapa unicos = Ok rs.
Proof.
  induction unicos as [|c resto IH]; intros Hall; [by eexists |].
  simpl. destruct (Hall c) as [r ->]; [by left |].
  destruct IH as [rs ->]; [intros c' Hc'; apply Hall; by right |].
  by eexists.
Qed.

(** No right row joins a key that is not among the keys of the right rows. *)
Lemma correspondentes_nenhum {A} (mapa : gmap string LookupResult) unicos rs (l : Linha A) :
  Forall2 (λ c r, mapa !! c = Some r ∧ CNPJ r = c) unicos rs →
  coluna_cnpj l ∉ unicos →
  correspondentes rs l = [].
Proof.
  unfold correspondentes.
  induction 1 as [|c r unicos rs [_ Hr] _ IH]; intros Hnot; [done |].
  apply not_elem_of_cons in Hnot as [Hne Hnot].
  rewrite filter_cons_False by congruence. by apply IH.
Qed.

(** With one right row per key, exactly the row of the key joins. *)
Lemma correspondentes_unico {A} (mapa : gmap string LookupResult) unicos rs (l : Linha A) :
  NoDup unicos →
  Forall2 (λ c r, mapa !! c = Some r ∧ CNPJ r = c) unicos rs →
  coluna_cnpj l ∈ unicos →
  ∃ r, mapa !! coluna_cnpj l = Some r ∧ correspondentes rs l = [r].
Proof.
  intros Hnd Hall. revert Hnd.
  induction Hall as [|c r unicos rs [Hc Hr] Hall IH]; intros Hnd Hin.
  { by apply elem_of_nil in Hin. }
  apply NoDup_cons in Hnd as [Hfresh Hnd].
  destruct (decide (coluna_cnpj l = c)) as [Heq | Hne].
  - exists r. split; [by rewrite Heq |].
    unfold correspondentes. rewrite filter_cons_True by congruence.
    f_equal. apply (correspondentes_nenhum mapa unicos); [done |].
    by rewrite Heq.
  - apply elem_of_cons in Hin as [? | Hin]; [done |].
    destruct (IH Hnd Hin) as (r' & Hr' & Hcorr). exists r'. split; [done |].
    unfold correspondentes in *. by rewrite filter_cons_False by congruence.
Qed.

(** The merge, when the right frame has one row per key of the left frame:
    one output row per left row, in the same order. *)
Lemma merge_left_unico {A} (mapa : gmap string LookupResult) unicos rs (df1 : list (Linha A)) :
  NoDup unicos →
  Forall2 (λ c r, mapa !! c = Some r ∧ CNPJ r = c) unicos rs →
  (∀ l, l ∈ df1 → coluna_cnpj l ∈ unicos) →
  flat_map (junta rs) df1 = map (linha_final mapa) df1.
Proof.
  intros Hnd Hall. induction df1 as [|l df1 IH]; intros Hkeys; [done |].
  simpl. rewrite IH by (intros l' Hl'; apply Hkeys; by right).
  destruct (correspondentes_unico mapa unicos rs l Hnd Hall)
    as (r & Hr & Hcorr); [apply Hkeys; by left |].
  unfold junta, linha_final. by rewrite Hcorr, Hr.
Qed.

(* ===================================================================== *)
(** * The enrichment pipeline *)
(* ===================================================================== *)

Lemma Forall2_impl_elem {X Y} (P Q : X → Y → Prop) l k :
  Forall2 P l k → (∀ x y, x ∈ l → P x y → Q x y) → Forall2 Q l k.
Proof.
  induction 1 as [|x y l k Hxy _ IH]; intros Himp; constructor.
  - apply Himp; [by left | done].
  - apply IH. intros x' y' Hx'. apply Himp. by right.
Qed.

Section PipelineClaims.

Context {World : Type}.
Variable requests_get : string → World → Reply * World.
Variable py_format : json → string.

Abbreviation laco := (consultas requests_get py_format).
Abbreviation roda := (processa requests_get py_format).

(** What a run of the script is made of: pre-processing (which never
    raises), the lookup loop, and, when the run completes, a [df_final] that
    holds for each pre-processed row, in order, that row with the record
    stored under its identifier. *)
Lemma processa_inv {A} (df : list (option string * A)) (st : St World) res st' :
  roda df st = (res, st') →
  ∃ df1 r1,
    Forall2 (λ entrada l,
               coluna_cnpj l = normaliza_cnpj entrada.1
               ∧ outras l = entrada.2
               ∧ cnpj_valido (coluna_cnpj l) = Some (_CNPJ_VALIDO l)) df df1
    ∧ laco (lista_unicos (map coluna_cnpj df1)) contagem_inicial st = (r1, st')
    ∧ (∀ out, res = Ok out →
         r1 = Ok (resumo out)
         ∧ df ≠ []
         ∧ df_final out = map (linha_final (resultados_map (resumo out))) df1).
Proof.
  unfold processa, bind at 1, lift at 1.
  destruct (pre_processa_spec df) as (df1 & -> & Hpre).
  unfold bind at 1.
  destruct (laco _ contagem_inicial st) as [r1 st1] eqn:Hlaco.
  intros Hrun. exists df1, r1.
  assert (st' = st1 ∧ ∀ out, res = Ok out →
            r1 = Ok (resumo out) ∧ df ≠ []
            ∧ df_final out = map (linha_final (resultados_map (resumo out))) df1)
    as [-> Hout]; [| done].
  destruct r1 as [est | e |].
  2,3: by injection Hrun as <- <-.
  unfold bind, lift, ret in Hrun.
  destruct (df_result _ _) as [direita | e |] eqn:Hdir.
  2,3: by injection Hrun as <- <-.
  destruct (merge_left df1 direita) as [final | e |] eqn:Hmerge.
  2,3: by injection Hrun as <- <-.
  injection Hrun as <- <-. split; [done |].
  intros out [= <-]. cbn [resumo df_final]. split; [done |].
  pose proof (lista_unicos_NoDup (map coluna_cnpj df1)) as Hnd.
  apply consultas_spec in Hlaco as [_ Hest]; [| done].
  destruct (Hest est eq_refl) as (_ & _ & Hnew & _).
  apply df_result_inv in Hdir.
  assert (Forall2 (λ c r, resultados_map est !! c = Some r ∧ CNPJ r = c)
            (lista_unicos (map coluna_cnpj df1)) direita) as Hall.
  { apply (Forall2_impl_elem _ _ _ _ Hdir). intros c r Hc Hr.
    destruct (Hnew c Hc) as (r' & Hr' & Hkey). by simplify_eq. }
  unfold merge_left in Hmerge.
  destruct direita as [|r0 direita']; [done |].
  injection Hmerge as <-. split.
  - intros ->. apply Forall2_nil_inv_l in Hpre as ->.
    assert (CNPJ r0 ∈ lista_unicos []) as Hc.
    { apply Forall2_cons_inv_r in Hall as (c & unicos & [_ Hc] & _ & Hu).
      change (map coluna_cnpj []) with (@nil string) in Hu.
      rewrite Hu, Hc. by left. }
    apply elem_of_lista_unicos in Hc. by apply elem_of_nil in Hc.
  - apply (merge_left_unico _ _ _ _ Hnd Hall).
    intros l Hl. apply elem_of_lista_unicos, list_elem_of_fmap. by exists l.
Qed.

(** A run always ends: with [df_final] and the summary, or with an
    exception. *)
Lemma processa_termina {A} (df : list (option string * A)) (st : St World) :
  (roda df st).1 ≠ Diverge.
Proof.
  unfold processa, bind at 1, lift at 1.
  destruct (pre_processa_spec df) as (df1 & -> & _).
  unfold bind at 1.
  pose proof (consultas_termina requests_get py_format
                (lista_unicos (map coluna_cnpj df1)) contagem_inicial st) as Hfim.
  destruct (laco _ contagem_inicial st) as [[est | e |] st1]; [| done | done].
  unfold bind, lift, ret.
  pose proof (df_result_inv (resultados_map est)
                (lista_unicos (map coluna_cnpj df1))) as Hinv.
  destruct (df_result _ _) as [direita | e |] eqn:Hdir; [| done |].
  - unfold merge_left. by destruct direita.
  - clear Hinv. exfalso. revert Hdir.
    generalize (lista_unicos (map coluna_cnpj df1)). intros l.
    induction l as [|c l IH]; simpl; [done |].
    destruct (resultados_map est !! c); [| done].
    destruct (df_result (resultados_map est) l); simpl; [done | done |].
    intros _. by apply IH.
Qed.

(** A run against a regular registry over a table that has rows completes. *)
Lemma processa_regular {A} (df : list (option string * A)) (st : St World) :
  registro_regular requests_get → df ≠ [] →
  ∃ out st', roda df st = (Ok out, st').
Proof.
  intros Hreg Hdf. unfold processa, bind at 1, lift at 1.
  destruct (pre_processa_spec df) as (df1 & -> & Hpre).
  unfold bind at 1.
  destruct (consultas_regular requests_get py_format Hreg
              (lista_unicos (map coluna_cnpj df1)) contagem_inicial st)
    as (est & st1 & Hlaco).
  rewrite Hlaco.
  apply consultas_spec in Hlaco as [_ Hest]; [| apply lista_unicos_NoDup].
  destruct (Hest est eq_refl) as (_ & _ & Hnew & _).
  destruct (df_result_total (resultados_map est)
              (lista_unicos (map coluna_cnpj df1))) as [direita Hdir].
  { intros c Hc. destruct (Hnew c Hc) as (r & -> & _). by eexists. }
  unfold bind, lift, ret. rewrite Hdir.
  apply df_result_inv in Hdir.
  destruct direita as [|r0 direita']; [| by eexists _, _].
  exfalso. apply Forall2_nil_inv_r in Hdir.
  destruct Hpre as [|entrada l df' df1' _ _]; [done |].
  assert (coluna_cnpj l ∈ lista_unicos (map coluna_cnpj (l :: df1'))) as Hin
    by (apply elem_of_lista_unicos; left).
  rewrite Hdir in Hin. by apply elem_of_nil in Hin.
Qed.

(** C1. Whatever the table and the registry: in the trace of the run, each
    identifier has at most one call of the registry client (within which the
    request is made at most [MAX_RETRIES + 1] times).  When the run
    completes, [df_final] has as many rows as the table, row [i] is the
    [i]-th input row with its normalised identifier and the record stored in
    [resultados_map] under that identifier, so that rows with the same
    identifier carry the same record.  Against a regular registry a run over
    a table with at least one row does complete. *)
Theorem enrich_dedup {A} (df : list (option string * A)) (st : St World) :
  (∀ res st' c, roda df st = (res, st') →
     ∃ evs, trace st' = trace st ++ evs
            ∧ (n_consultas c evs ≤ 1)%nat
            ∧ (n_pedidos (url_de c) evs ≤ S MAX_RETRIES)%nat)
  ∧ (∀ out st', roda df st = (Ok out, st') →
       length (df_final out) = length df
       ∧ (∀ i cel resto, df !! i = Some (cel, resto) →
            ∃ l r, df_final out !! i = Some {| linha := l; resultado := Some r |}
                   ∧ coluna_cnpj l = normaliza_cnpj cel
                   ∧ outras l = resto
                   ∧ resultados_map (resumo out) !! normaliza_cnpj cel = Some r)
       ∧ (∀ i j ri rj,
            df_final out !! i = Some ri → df_final out !! j = Some rj →
            coluna_cnpj (linha ri) = coluna_cnpj (linha rj) →
            resultado ri = resultado rj))
  ∧ (registro_regular requests_get → df ≠ [] →
     ∃ out st', roda df st = (Ok out, st')).
Proof.
  split; [| split; [| apply processa_regular]].
  - intros res st' c Hrun.
    apply processa_inv in Hrun as (df1 & r1 & _ & Hlaco & _).
    pose proof (lista_unicos_NoDup (map coluna_cnpj df1)) as Hnd.
    destruct (consultas_pedidos requests_get py_format _ _ _ _ _ Hnd Hlaco)
      as (evs' & Htr' & Hpedidos).
    apply consultas_spec in Hlaco as [(evs & Htr & Hevs) _]; [| done].
    assert (evs' = evs) as -> by (apply (app_inv_head (trace st)); congruence).
    exists evs. split; [done |]. split; [| done].
    specialize (Hevs c). case_decide; lia.
  - intros out st' Hrun.
    apply processa_inv in Hrun as (df1 & r1 & Hpre & Hlaco & Hout).
    destruct (Hout out eq_refl) as (-> & Hdf & Hfinal).
    apply consultas_spec in Hlaco as [_ Hest]; [| apply lista_unicos_NoDup].
    destruct (Hest _ eq_refl) as (_ & _ & Hnew & _).
    split; [| split].
    + rewrite Hfinal, length_map. symmetry. by eapply Forall2_length.
    + intros i cel resto Hi.
      destruct (Forall2_lookup_l _ _ _ _ _ Hpre Hi) as (l & Hl & Hcnpj & Hresto & _).
      simpl in Hcnpj, Hresto.
      destruct (Hnew (coluna_cnpj l)) as (r & Hr & _).
      { apply elem_of_lista_unicos, list_elem_of_fmap. exists l.
        split; [done |]. by eapply list_elem_of_lookup_2. }
      exists l, r. rewrite Hfinal, list_lookup_fmap, Hl. simpl.
      unfold linha_final. rewrite Hr, <- Hcnpj. done.
    + intros i j ri rj Hi Hj Hkey. rewrite Hfinal in Hi, Hj.
      apply list_lookup_fmap_Some in Hi as (li & -> & _).
      apply list_lookup_fmap_Some in Hj as (lj & -> & _).
      unfold linha_final in *. simpl in *. by rewrite Hkey.
Qed.

(** C10. After the loop over the distinct identifiers of a list, started
    from the empty mapping and zeroed counters: every distinct identifier
    falls in exactly one of the three classes, the three counters are the
    sizes of the classes, their sum is the number of distinct identifiers,
    and the mapping has exactly the distinct identifiers as keys, each with
    one record that is its own.  Against a regular registry the loop does
    complete. *)
Theorem laco_classifica (lista_todos : list string) (st : St World) :
  let unicos := lista_unicos lista_todos in
  let distintos : gset string := list_to_set lista_todos in
  (∀ est st', laco unicos contagem_inicial st = (Ok est, st') →
     (∀ c, c ∈ lista_todos → n_classes (resultados_map est) c = 1%nat)
     ∧ inval est = conta e_invalido unicos
     ∧ ok est = conta (e_sucesso (resultados_map est)) unicos
     ∧ err est = conta (e_erro (resultados_map est)) unicos
     ∧ (ok est + inval est + err est)%nat = size distintos
     ∧ length unicos = size distintos
     ∧ dom (resultados_map est) = distintos
     ∧ size (resultados_map est) = size distintos
     ∧ (∀ c, c ∈ lista_todos →
          ∃ r, resultados_map est !! c = Some r ∧ CNPJ r = c))
  ∧ (registro_regular requests_get →
     ∃ est st', laco unicos contagem_inicial st = (Ok est, st')).
Proof.
  intros unicos distintos. subst unicos distintos. split.
  - intros est st' Hrun.
    apply consultas_spec in Hrun as [_ Hest]; [| apply lista_unicos_NoDup].
    destruct (Hest est eq_refl)
      as (Hdom & _ & Hnew & Hinv & Hok & Herr & Hsum & Hclasse).
    cbn [contagem_inicial resultados_map ok inval err] in *.
    assert (dom (resultados_map est) = list_to_set lista_todos) as Hd.
    { rewrite Hdom, dom_empty_L, (left_id_L ∅ (∪)).
      apply set_eq. intros c.
      by rewrite !elem_of_list_to_set, elem_of_lista_unicos. }
    pose proof (length_lista_unicos lista_todos) as Hlen.
    split; [| split; [| split; [| split; [| split; [| split; [| split; [| split]]]]]]];
      try done.
    + intros c Hc. by apply Hclasse, elem_of_lista_unicos.
    + lia.
    + by rewrite <- size_dom, Hd.
    + intros c Hc. by apply Hnew, elem_of_lista_unicos.
  - intros Hreg. by apply consultas_regular.
Qed.

(** C8, as the code has it.  The loop runs over the distinct identifiers, so
    the three counters of the summary count distinct identifiers: those that
    fail validation, and among the valid ones those whose name starts with
    "Erro" or "Não encontrado" and those whose name does not. *)
Theorem resumo_conta_identificadores {A} (df : list (option string * A))
    (st : St World) out st' :
  roda df st = (Ok out, st') →
  let unicos := lista_unicos (map (λ entrada, normaliza_cnpj entrada.1) df) in
  let mapa := resultados_map (resumo out) in
  ok (resumo out) = conta (e_sucesso mapa) unicos
  ∧ inval (resumo out) = conta e_invalido unicos
  ∧ err (resumo out) = conta (e_erro mapa) unicos.
Proof.
  intros Hrun unicos mapa.
  apply processa_inv in Hrun as (df1 & r1 & Hpre & Hlaco & Hout).
  destruct (Hout out eq_refl) as (-> & _ & _).
  assert (map coluna_cnpj df1 = map (λ entrada, normaliza_cnpj entrada.1) df)
    as Hids.
  { clear Hlaco Hout. induction Hpre as [|e l df df1 (Hc & _) _ IH]; [done |].
    simpl. by rewrite Hc, IH. }
  rewrite Hids in Hlaco. subst unicos mapa.
  apply consultas_spec in Hlaco as [_ Hest]; [| apply lista_unicos_NoDup].
  destruct (Hest _ eq_refl) as (_ & _ & _ & Hinv & Hok & Herr & _).
  cbn [contagem_inicial ok inval err] in *. by rewrite Hinv, Hok, Herr.
Qed.

End PipelineClaims.

(* ===================================================================== *)
(** * The enrichment pipeline: worked cases *)
(* ===================================================================== *)

Lemma registro_constante_regular : registro_regular registro_constante.
Proof. intros url w. reflexivity. Qed.

Lemma enrich_dedup_witness :
  ∃ out st',
    processa registro_constante format_escalar tabela_mista inicio = (Ok out, st')
    ∧ length (df_final out) = length tabela_mista.
Proof.
  destruct (enrich_dedup registro_constante format_escalar tabela_mista inicio)
    as (_ & Hrows & Hrun).
  destruct (Hrun registro_constante_regular) as (out & st' & Hout);
    [discriminate |].
  exists out, st'.
  split; [exact Hout | exact (proj1 (Hrows out st' Hout))].
Defined.

Lemma laco_classifica_witness :
  ∃ est st',
    consultas registro_constante format_escalar
      (lista_unicos [fixture; zeros14; fixture]) contagem_inicial inicio
    = (Ok est, st')
    ∧ (ok est + inval est + err est)%nat
      = size (list_to_set [fixture; zeros14; fixture] : gset string).
Proof.
  destruct (laco_classifica registro_constante format_escalar
              [fixture; zeros14; fixture] inicio) as [Hinv Hrun].
  destruct (Hrun registro_constante_regular) as (est & st' & Hest).
  exists est, st'. split; [exact Hest |].
  destruct (Hinv est st' Hest) as (_ & _ & _ & _ & Hsum & _). exact Hsum.
Defined.

Lemma resumo_conta_identificadores_witness :
  ∃ out st',
    processa registro_constante format_escalar tabela_duplicada inicio
    = (Ok out, st')
    ∧ ok (resumo out)
      = conta (e_sucesso (resultados_map (resumo out)))
          (lista_unicos (map (λ entrada, normaliza_cnpj entrada.1) tabela_duplicada)).
Proof.
  destruct (processa_regular registro_constante format_escalar tabela_duplicada
              inicio registro_constante_regular) as (out & st' & Hout);
    [discriminate |].
  exists out, st'. split; [exact Hout |].
  exact (proj1 (resumo_conta_identificadores registro_constante format_escalar
                  tabela_duplicada inicio out st' Hout)).
Defined.

(** C8, as the specification states it, fails: of two rows that hold the
    same valid identifier, found by the registry, the success counter counts
    one identifier while two rows carry a name without error text. *)
Lemma resumo_conta_linhas_counterexample :
  contadores_e_linhas
    (processa registro_constante format_escalar tabela_duplicada inicio).1
  = Some ((1, 0, 0)%nat, (2, 0, 0)%nat).
Proof. vm_compute. reflexivity. Qed.

(* ===================================================================== *)
(** * [to_str] and [normaliza_cnpj]: stripping, the pattern, round trips *)
(* ===================================================================== *)

Lemma all_chars_impl (P Q : ascii → bool) s :
  (∀ c, P c = true → Q c = true) → all_chars P s = true → all_chars Q s = true.
Proof.
  intros HPQ. induction s as [|c s IH]; simpl; [done |].
  intros [Hc Hs]%andb_prop. by rewrite (HPQ c Hc), IH.
Qed.

Lemma lstrip_inicio_firme s : inicio_firme (Py.lstrip s) = true.
Proof.
  induction s as [|c s IH]; simpl; [done |].
  destruct (Py.is_space c) eqn:Hc; [done |]. simpl. by rewrite Hc.
Qed.

Lemma lstrip_id s : inicio_firme s = true → Py.lstrip s = s.
Proof.
  destruct s as [|c s]; simpl; [done |].
  intros Hc%negb_true_iff. by rewrite Hc.
Qed.

Lemma rstrip_inicio_firme s :
  inicio_firme s = true → inicio_firme (Py.rstrip s) = true.
Proof.
  destruct s as [|c s]; simpl; [done |]. intros Hc.
  destruct (Py.rstrip s); simpl; [| done].
  apply negb_true_iff in Hc. rewrite Hc. simpl. by rewrite Hc.
Qed.

Lemma rstrip_idemp s : Py.rstrip (Py.rstrip s) = Py.rstrip s.
Proof.
  induction s as [|c s IH]; simpl; [done |].
  destruct (Py.rstrip s) as [|c' r'] eqn:Hr.
  - destruct (Py.is_space c) eqn:Hc; simpl; [done | by rewrite Hc].
  - simpl in IH |- *. by rewrite IH.
Qed.

Lemma rstrip_id s :
  all_chars (λ c, negb (Py.is_space c)) s = true → Py.rstrip s = s.
Proof.
  induction s as [|c s IH]; simpl; [done |].
  intros [Hc Hs]%andb_prop. rewrite (IH Hs).
  apply negb_true_iff in Hc. destruct s; [by rewrite Hc | done].
Qed.

Lemma strip_idemp s : Py.strip (Py.strip s) = Py.strip s.
Proof.
  unfold Py.strip.
  rewrite (lstrip_id (Py.rstrip (Py.lstrip s))).
  - apply rstrip_idemp.
  - apply rstrip_inicio_firme, lstrip_inicio_firme.
Qed.

Lemma strip_id s :
  all_chars (λ c, negb (Py.is_space c)) s = true → Py.strip s = s.
Proof.
  intros Hs. unfold Py.strip. rewrite lstrip_id; [by apply rstrip_id |].
  destruct s as [|c s]; simpl in *; [done |]. by apply andb_prop in Hs as [? _].
Qed.

Lemma space_not_digit c : Py.is_space c = true → Py.is_digit c = false.
Proof. by destruct c as [[] [] [] [] [] [] [] []]. Qed.

(** Stripping removes no digit. *)
Lemma apenas_digitos_lstrip s : apenas_digitos (Py.lstrip s) = apenas_digitos s.
Proof.
  induction s as [|c s IH]; simpl; [done |].
  destruct (Py.is_space c) eqn:Hsp; [| done].
  by rewrite IH, (space_not_digit c Hsp).
Qed.

Lemma apenas_digitos_rstrip s : apenas_digitos (Py.rstrip s) = apenas_digitos s.
Proof.
  induction s as [|c s IH]; simpl; [done |].
  destruct (Py.rstrip s) as [|c' r'] eqn:Hr.
  - rewrite <- IH.
    destruct (Py.is_space c) eqn:Hsp; [by rewrite (space_not_digit c Hsp) |].
    simpl. by destruct (Py.is_digit c).
  - simpl in *. by rewrite IH.
Qed.

Lemma apenas_digitos_strip s : apenas_digitos (Py.strip s) = apenas_digitos s.
Proof. unfold Py.strip. by rewrite apenas_digitos_rstrip, apenas_digitos_lstrip. Qed.

Lemma apenas_digitos_idemp s : apenas_digitos (apenas_digitos s) = apenas_digitos s.
Proof. apply apenas_digitos_id, apenas_digitos_digits. Qed.

Lemma apenas_digitos_app (a b : string) :
  apenas_digitos (a +:+ b) = apenas_digitos a +:+ apenas_digitos b.
Proof.
  induction a as [|c a IH]; [done |].
  change (String c a +:+ b) with (String c (a +:+ b)). simpl.
  rewrite IH. by destruct (Py.is_digit c).
Qed.

(** The span of digits splits the text, and what follows does not start with
    a digit. *)
Lemma span_digits_spec s :
  s = (span_digits s).1 +:+ (span_digits s).2
  ∧ all_chars Py.is_digit (span_digits s).1 = true
  ∧ match (span_digits s).2 with
    | EmptyString => True
    | String c _ => Py.is_digit c = false
    end.
Proof.
  induction s as [|c s (IH1 & IH2 & IH3)]; simpl; [done |].
  destruct (Py.is_digit c) eqn:Hc; [| by simpl].
  destruct (span_digits s) as [d r]. simpl in *.
  rewrite Hc, IH2. split; [| done].
  change (String c d +:+ r) with (String c (d +:+ r)). by rewrite <- IH1.
Qed.

Lemma span_digits_app d r :
  all_chars Py.is_digit d = true →
  match r with EmptyString => True | String c _ => Py.is_digit c = false end →
  span_digits (d +:+ r) = (d, r).
Proof.
  intros Hd Hr. induction d as [|c d IH].
  - destruct r as [|c r]; [done |]. simpl. by rewrite Hr.
  - simpl in Hd. apply andb_prop in Hd as [Hc Hd].
    change (String c d +:+ r) with (String c (d +:+ r)). simpl.
    by rewrite Hc, (IH Hd).
Qed.

(* ===================================================================== *)
(** * The scientific-notation pattern and the float round trip *)
(* ===================================================================== *)

Lemma app_empty_r (s : string) : s +:+ "" = s.
Proof.
  induction s as [|c s IH]; [done |].
  change (String c s +:+ "") with (String c (s +:+ "")). by rewrite IH.
Qed.

Lemma app_assoc_string (a b c : string) : (a +:+ b) +:+ c = a +:+ (b +:+ c).
Proof.
  induction a as [|x a IH]; [done |].
  change ((String x a +:+ b) +:+ c) with (String x ((a +:+ b) +:+ c)).
  by rewrite IH.
Qed.

Lemma digit_not_space c : Py.is_digit c = true → Py.is_space c = false.
Proof. by destruct c as [[] [] [] [] [] [] [] []]. Qed.

Lemma e_marca_not_digit c : e_marca c = true → Py.is_digit c = false.
Proof. by destruct c as [[] [] [] [] [] [] [] []]. Qed.

Lemma e_marca_not_space c : e_marca c = true → Py.is_space c = false.
Proof. by destruct c as [[] [] [] [] [] [] [] []]. Qed.

(** The two matching functions, with their character tests spelled out. *)
Lemma match_expoente_eq i f r :
  match_expoente i f r =
    match r with
    | String c (String p r') =>
        if Ascii.eqb p "+" && e_marca c then
          let '(x, r'') := span_digits r' in
          if nonempty x && negb (nonempty r'') then Some (i, f, x) else None
        else None
    | _ => None
    end.
Proof.
  destruct r as [|c [|p r']]; [done | done |].
  unfold match_expoente, e_marca.
  destruct p as [[] [] [] [] [] [] [] []]; try reflexivity.
Qed.

Lemma fullmatch_cientifica_eq s :
  fullmatch_cientifica s =
    let '(i, r1) := span_digits s in
    if nonempty i then
      match r1 with
      | String p r2 =>
          if Ascii.eqb p "." then
            let '(f, r3) := span_digits r2 in
            if nonempty f then match_expoente i f r3 else None
          else match_expoente i EmptyString r1
      | EmptyString => match_expoente i EmptyString r1
      end
    else None.
Proof.
  unfold fullmatch_cientifica. destruct (span_digits s) as [i r1].
  destruct (nonempty i); [| done]. destruct r1 as [|p r2]; [done |].
  destruct p as [[] [] [] [] [] [] [] []]; reflexivity.
Qed.

Lemma match_expoente_sound i f r res :
  match_expoente i f r = Some res →
  ∃ c x, res = (i, f, x) ∧ e_marca c = true ∧ r = String c (String "+" x)
         ∧ all_chars Py.is_digit x = true ∧ nonempty x = true.
Proof.
  rewrite match_expoente_eq. destruct r as [|c [|p r']]; [done | done |].
  destruct (Ascii.eqb_spec p "+") as [-> | _]; [| done].
  destruct (e_marca c) eqn:Hc; [| done]. simpl.
  pose proof (span_digits_spec r') as (Hsplit & Hdig & _).
  destruct (span_digits r') as [x r'']. simpl in *.
  destruct (nonempty x) eqn:Hx; [| done].
  destruct r'' as [|? ?]; [| done]. simpl. intros [= <-].
  exists c, x. rewrite app_empty_r in Hsplit. by subst.
Qed.

(** What the pattern accepts: digits, an optional [.] and digits, [e] or
    [E], [+], digits. *)
Lemma fullmatch_cientifica_sound s i f x :
  fullmatch_cientifica s = Some (i, f, x) →
  ∃ c, e_marca c = true ∧ s = literal_cientifico i f c x
       ∧ all_chars Py.is_digit i = true ∧ nonempty i = true
       ∧ all_chars Py.is_digit f = true
       ∧ all_chars Py.is_digit x = true ∧ nonempty x = true.
Proof.
  rewrite fullmatch_cientifica_eq.
  pose proof (span_digits_spec s) as (Hs & Hi & Hr1).
  destruct (span_digits s) as [i0 r1]. simpl in *.
  destruct (nonempty i0) eqn:Hne; [| done].
  assert (∀ r, s = i0 +:+ r → match_expoente i0 "" r = Some (i, f, x) →
    ∃ c, e_marca c = true ∧ s = literal_cientifico i f c x
         ∧ all_chars Py.is_digit i = true ∧ nonempty i = true
         ∧ all_chars Py.is_digit f = true
         ∧ all_chars Py.is_digit x = true ∧ nonempty x = true) as Hsem.
  { intros r Hr (c & x' & [= -> -> ->] & Hc & -> & Hx & Hnx)%match_expoente_sound.
    exists c. unfold literal_cientifico. by simpl. }
  destruct r1 as [|p r2]; [by apply Hsem |].
  destruct (Ascii.eqb_spec p ".") as [-> | _]; [| by apply Hsem].
  pose proof (span_digits_spec r2) as (Hr2 & Hf & _).
  destruct (span_digits r2) as [f0 r3]. simpl in *.
  destruct (nonempty f0) eqn:Hnf; [| done].
  intros (c & x' & [= -> -> ->] & Hc & -> & Hx & Hnx)%match_expoente_sound.
  exists c. unfold literal_cientifico. rewrite Hnf.
  split; [done |]. split; [| done].
  rewrite Hs, Hr2. reflexivity.
Qed.

Lemma fullmatch_cientifica_complete i f c x :
  all_chars Py.is_digit i = true → nonempty i = true →
  all_chars Py.is_digit f = true →
  all_chars Py.is_digit x = true → nonempty x = true →
  e_marca c = true →
  fullmatch_cientifica (literal_cientifico i f c x) = Some (i, f, x).
Proof.
  intros Hi Hni Hf Hx Hnx Hc.
  assert (match_expoente i f (String c (String "+" x)) = Some (i, f, x)) as Hexp.
  { pose proof (span_digits_app x "" Hx I) as Hspan.
    rewrite app_empty_r in Hspan.
    rewrite match_expoente_eq. rewrite Hc. simpl.
    by rewrite Hspan, Hnx. }
  rewrite fullmatch_cientifica_eq. unfold literal_cientifico.
  destruct (nonempty f) eqn:Hnf.
  - rewrite (span_digits_app i _ Hi); [| done]. rewrite Hni.
    change ("." +:+ f) with (String "." f).
    change (String "." f +:+ ?r) with (String "." (f +:+ r)).
    simpl Ascii.eqb. cbv iota.
    rewrite (span_digits_app f _ Hf); [| by apply e_marca_not_digit].
    by rewrite Hnf.
  - destruct f; [| done]. change ("" +:+ ?r) with r.
    rewrite (span_digits_app i _ Hi); [| by apply e_marca_not_digit].
    rewrite Hni.
    destruct (Ascii.eqb_spec c ".") as [-> | _]; [done | exact Hexp].
Qed.

(** [str] of an integer prints digits, after a [-] when negative. *)
Lemma string_of_uint_chars d :
  all_chars digito_ou_sinal (NilEmpty.string_of_uint d) = true.
Proof. induction d as [|d IH|d IH|d IH|d IH|d IH|d IH|d IH|d IH|d IH|d IH]; done. Qed.

Lemma str_int_chars z : all_chars digito_ou_sinal (Py.str_int z) = true.
Proof.
  unfold Py.str_int, NilZero.string_of_int, NilZero.string_of_uint.
  destruct (Z.to_int z) as [d | d]; destruct d; simpl;
    try done; apply string_of_uint_chars.
Qed.

(** A text of digits and [-] is left alone by [to_str]. *)
Lemma to_str_digito_ou_sinal s :
  all_chars digito_ou_sinal s = true → to_str (Some s) = s.
Proof.
  intros Hs. unfold to_str.
  rewrite strip_id.
  2:{ apply (all_chars_impl digito_ou_sinal); [| done].
      by intros [[] [] [] [] [] [] [] []]. }
  destruct (fullmatch_cientifica s) as [[[i f] x]|] eqn:Hm; [| done].
  apply fullmatch_cientifica_sound in Hm as (c & Hc & -> & _).
  exfalso. unfold literal_cientifico in Hs.
  rewrite !all_chars_app in Hs. simpl in Hs.
  assert (digito_ou_sinal c = false) as Hno
    by (by destruct c as [[] [] [] [] [] [] [] []]).
  rewrite Hno in Hs. simpl in Hs.
  by rewrite !andb_false_r in Hs.
Qed.

Lemma int_float_exact p :
  0 <= p < 2 ^ 53 → Float64.int_float p 1 = Some p.
Proof.
  intros [Hp0 Hp]. unfold Float64.int_float.
  destruct (Z.eqb_spec p 0) as [-> | Hne]; [done |].
  assert (0 < p) as Hpos by lia.
  pose proof (Z.log2_nonneg p) as Hl0.
  pose proof (Z.log2_spec p Hpos) as [Hlo _].
  assert (Z.log2 p < 53) as Hl by (by apply Z.log2_lt_pow2).
  assert (Float64.floor_log2 p 1 = Z.log2 p) as Hfloor.
  { unfold Float64.floor_log2. change (Z.log2 1) with 0. rewrite Z.sub_0_r.
    destruct (Z.leb_spec 0 (Z.log2 p)); [| lia]. rewrite Z.mul_1_l.
    by destruct (Z.leb_spec (2 ^ Z.log2 p) p); [| lia]. }
  unfold Float64.nearest. rewrite Hfloor.
  set (e := 52 - Z.log2 p).
  assert (0 <= e) as He by (unfold e; lia).
  replace (Z.max (Z.log2 p - 52) (-1074)) with (- e) by (unfold e; lia).
  rewrite Z.opp_involutive, (Z.max_l e 0), (Z.max_r (- e) 0) by lia.
  change (1 * 2 ^ 0) with 1.
  assert (Float64.round_half_even (p * 2 ^ e) 1 = p * 2 ^ e) as ->.
  { unfold Float64.round_half_even. by rewrite Z.div_1_r, Z.mod_1_r. }
  destruct (Z.leb_spec 0 (- e)) as [Hz | Hneg].
  - assert (e = 0) as -> by lia. change (2 ^ 0) with 1. change (- 0) with 0.
    change (2 ^ 0) with 1. rewrite !Z.mul_1_r.
    assert (2 ^ 53 < 2 ^ 1024) as Hbig by (by apply Z.pow_lt_mono_r).
    by destruct (Z.leb_spec (2 ^ 1024) p); [lia |].
  - f_equal. apply Z.div_mul. apply Z.pow_nonzero; lia.
Qed.

Lemma int_digits_from_nonneg s : ∀ acc,
  all_chars Py.is_digit s = true → 0 <= acc → 0 <= Py.int_digits_from acc s.
Proof.
  induction s as [|c s IH]; intros acc; simpl; [done |].
  intros [Hc Hs]%andb_prop Hacc. apply IH; [done |].
  unfold Py.is_digit in Hc. apply andb_prop in Hc as [Hlo _].
  apply Z.leb_le in Hlo. lia.
Qed.

(* ===================================================================== *)
(** * [to_str] and [normaliza_cnpj]: the properties *)
(* ===================================================================== *)

(** The shape of a normalised identifier. *)
Lemma normaliza_cnpj_forma x :
  all_chars Py.is_digit (normaliza_cnpj x) = true
  ∧ (14 ≤ String.length (normaliza_cnpj x))%nat.
Proof.
  unfold normaliza_cnpj.
  pose proof (apenas_digitos_digits (to_str x)) as Hd.
  rewrite (zfill_digits 14 _ Hd). split.
  - rewrite all_chars_app, Hd. by rewrite all_chars_repeat.
  - rewrite length_app_string, length_repeat_char. lia.
Qed.

Lemma digit_digito_ou_sinal s :
  all_chars Py.is_digit s = true → all_chars digito_ou_sinal s = true.
Proof.
  apply all_chars_impl. intros c Hc. unfold digito_ou_sinal. by rewrite Hc.
Qed.

(** X1. Cleaning a cell twice is cleaning it once: [to_str] is idempotent, so
    a column read through the converter [to_str] and then normalised gives
    what normalising the raw cells gives; and a normalised identifier is
    left as it is by a second normalisation. *)
Theorem normaliza_cnpj_idempotente (x : option string) :
  to_str (Some (to_str x)) = to_str x
  ∧ normaliza_cnpj (Some (to_str x)) = normaliza_cnpj x
  ∧ normaliza_cnpj (Some (normaliza_cnpj x)) = normaliza_cnpj x.
Proof.
  assert (to_str (Some (to_str x)) = to_str x) as Hidem.
  { destruct x as [t|]; [| done]. unfold to_str at 2 3.
    assert (to_str (Some (Py.strip t)) =
            match fullmatch_cientifica (Py.strip t) with
            | Some (i, f, e) =>
                match str_int_float i f e with
                | Some s' => s'
                | None => Py.strip t
                end
            | None => Py.strip t
            end) as Hs by (unfold to_str; by rewrite strip_idemp).
    destruct (fullmatch_cientifica (Py.strip t)) as [[[i f] e]|]; [| done].
    destruct (str_int_float i f e) as [s'|] eqn:Hconv; [| done].
    apply to_str_digito_ou_sinal.
    unfold str_int_float in Hconv.
    destruct (Float64.int_float _ _) as [z|]; [| done].
    injection Hconv as <-. apply str_int_chars. }
  split; [done |]. split.
  - unfold normaliza_cnpj. by rewrite Hidem.
  - destruct (normaliza_cnpj_forma x) as [Hdig Hlen].
    unfold normaliza_cnpj at 1.
    rewrite (to_str_digito_ou_sinal _ (digit_digito_ou_sinal _ Hdig)).
    rewrite (apenas_digitos_id _ Hdig), (zfill_digits 14 _ Hdig).
    by replace (14 - String.length (normaliza_cnpj x))%nat with 0%nat by lia.
Qed.

(** X2. A cell of ASCII characters that is not a scientific-notation literal
    is normalised to its digits, in their order, after as many zeros as it
    takes to reach 14 characters: nothing is cut off.  With 14 digits or more
    the result is the digits themselves, and with more than 14 the validator
    rejects it. *)
Theorem normaliza_cnpj_digitos (s : string) :
  texto_ascii s = true →
  fullmatch_cientifica (Py.strip s) = None →
  let d := apenas_digitos s in
  normaliza_cnpj (Some s) = Py.repeat_char "0" (14 - String.length d) +:+ d
  ∧ ((14 ≤ String.length d)%nat → normaliza_cnpj (Some s) = d)
  ∧ ((14 < String.length d)%nat →
     cnpj_valido (normaliza_cnpj (Some s)) = Some false).
Proof.
  intros _ Hm d.
  assert (normaliza_cnpj (Some s)
          = Py.repeat_char "0" (14 - String.length d) +:+ d) as Hn.
  { unfold normaliza_cnpj, to_str. rewrite Hm, apenas_digitos_strip.
    apply zfill_digits, apenas_digitos_digits. }
  assert ((14 ≤ String.length d)%nat → normaliza_cnpj (Some s) = d) as Hd.
  { intros Hlen. rewrite Hn.
    by replace (14 - String.length d)%nat with 0%nat by lia. }
  split; [done |]. split; [done |].
  intros Hlen. rewrite Hd by lia. unfold cnpj_valido, d.
  rewrite apenas_digitos_idemp.
  destruct (Nat.eqb_spec (String.length (apenas_digitos s)) 14); [| done].
  unfold d in Hlen. lia.
Qed.

Lemma normaliza_cnpj_digitos_witness :
  normaliza_cnpj (Some "11.222.333/0001-81 (matriz 7)") = "112223330001817"
  ∧ cnpj_valido (normaliza_cnpj (Some "11.222.333/0001-81 (matriz 7)"))
    = Some false.
Proof.
  destruct (normaliza_cnpj_digitos "11.222.333/0001-81 (matriz 7)"
              eq_refl eq_refl) as (_ & Hd & Hv).
  split; [apply Hd; vm_compute; lia | apply Hv; vm_compute; lia].
Defined.

(** X3. A whole number below 2^53 written in scientific notation (digits, an
    optional fraction, [e] or [E], [+], an exponent that is at least the
    number of fraction digits) is turned back by [to_str] into its decimal
    digits, exactly: the float it goes through holds it without rounding. *)
Theorem to_str_notacao_cientifica (i f : string) (c : ascii) (x : string) :
  all_chars Py.is_digit i = true → nonempty i = true →
  all_chars Py.is_digit f = true →
  all_chars Py.is_digit x = true → nonempty x = true →
  e_marca c = true →
  let k := Py.int_digits x - Z.of_nat (String.length f) in
  let n := Py.int_digits (i +:+ f) * 10 ^ k in
  0 <= k → n < 2 ^ 53 →
  to_str (Some (literal_cientifico i f c x)) = Py.str_int n.
Proof.
  intros Hi Hni Hf Hx Hnx Hc k n Hk Hn.
  assert (0 <= n) as Hn0.
  { unfold n. apply Z.mul_nonneg_nonneg; [| by apply Z.pow_nonneg].
    apply int_digits_from_nonneg; [| done].
    by rewrite all_chars_app, Hi, Hf. }
  unfold to_str. rewrite strip_id.
  2:{ unfold literal_cientifico.
      assert (∀ t, all_chars Py.is_digit t = true →
                   all_chars (λ c, negb (Py.is_space c)) t = true) as Hnsp.
      { intros t. apply all_chars_impl. intros a Ha.
        by rewrite (digit_not_space a Ha). }
      change ("+" +:+ x) with (String "+" x).
      rewrite !all_chars_app. simpl.
      rewrite (Hnsp i Hi), (Hnsp x Hx), (e_marca_not_space c Hc). simpl.
      destruct (nonempty f); [| done].
      change ("." +:+ f) with (String "." f). simpl. by rewrite (Hnsp f Hf). }
  rewrite (fullmatch_cientifica_complete i f c x) by done.
  unfold str_int_float. fold k.
  rewrite (Z.max_l k 0), (Z.max_r (- k) 0) by lia.
  change (10 ^ 0) with 1. fold n.
  by rewrite int_float_exact.
Qed.

Lemma to_str_notacao_cientifica_witness :
  to_str (Some "1.1222333000181E+13") = "11222333000181".
Proof.
  refine (to_str_notacao_cientifica "1" "1222333000181" "E" "13"
            eq_refl eq_refl eq_refl eq_refl eq_refl eq_refl _ _).
  - vm_compute. discriminate.
  - vm_compute. reflexivity.
Defined.

(* ===================================================================== *)
(** * The validator on arbitrary texts; completing a 12-digit base *)
(* ===================================================================== *)

Lemma cnpj_valido_digitos s : cnpj_valido s = cnpj_valido (apenas_digitos s).
Proof. unfold cnpj_valido. by rewrite apenas_digitos_idemp. Qed.

(** A repunit of 14 digits is rejected. *)
Lemma cnpj_valido_repunit_digitos d :
  String.length d = 14%nat → all_chars Py.is_digit d = true → repunit d →
  cnpj_valido d = Some false.
Proof.
  intros Hlen Hdig [c Hc]. rewrite Hlen in Hc.
  unfold cnpj_valido. rewrite (apenas_digitos_id d Hdig), Hlen.
  simpl negb. cbv iota.
  destruct d as [|c0 t]; [done |].
  assert (c0 = c) as -> by (simpl in Hc; congruence).
  by rewrite Hc, String.eqb_refl.
Qed.

Lemma prefix_skip n s : s = Py.prefix n s +:+ Py.skip n s.
Proof.
  revert s. induction n as [|n IH]; intros [|c s]; simpl; try done.
  change (String c (Py.prefix n s) +:+ ?r) with (String c (Py.prefix n s +:+ r)).
  by rewrite <- IH.
Qed.

Lemma prefix_app_length (a b : string) :
  Py.prefix (String.length a) (a +:+ b) = a.
Proof.
  induction a as [|c a IH]; simpl; [by destruct b |].
  change (String c a +:+ b) with (String c (a +:+ b)). simpl. by rewrite IH.
Qed.

Lemma skip_app_length (a b : string) :
  Py.skip (String.length a) (a +:+ b) = b.
Proof.
  induction a as [|c a IH]; [done |].
  change (String c a +:+ b) with (String c (a +:+ b)). simpl. by rewrite IH.
Qed.

Lemma length_digit_values s : length (Spec.digit_values s) = String.length s.
Proof. induction s as [|c s IH]; simpl; [done | by rewrite IH]. Qed.

(** The check digits of a text are those of its first 12 characters. *)
Lemma check_digits_prefix s :
  Spec.check_digits (Py.prefix 12 s) = Spec.check_digits s.
Proof.
  unfold Spec.check_digits, Spec.second_check, Spec.first_check.
  by rewrite digit_values_prefix, take_take, Nat.min_id.
Qed.

(** X4. The validator on any text of ASCII characters, punctuated or not:
    it answers [true] exactly when the digits of the text number 14, are not
    all the same digit, and end with the two check digits of the first
    twelve. *)
Theorem cnpj_valido_aceita (s : string) :
  texto_ascii s = true →
  let d := apenas_digitos s in
  cnpj_valido s = Some true
  ↔ String.length d = 14%nat ∧ ¬ repunit d
    ∧ Py.suffix 2 d = Spec.check_digits d.
Proof.
  intros _ d. pose proof (apenas_digitos_digits s) as Hdig. fold d in Hdig.
  rewrite cnpj_valido_digitos. fold d. split.
  - intros Hv.
    assert (String.length d = 14%nat) as Hlen.
    { destruct (Nat.eqb_spec (String.length d) 14) as [? | Hne]; [done |].
      unfold cnpj_valido in Hv. rewrite (apenas_digitos_id d Hdig) in Hv.
      apply Nat.eqb_neq in Hne. by rewrite Hne in Hv. }
    assert (¬ repunit d) as Hrep.
    { intros Hrep. by rewrite (cnpj_valido_repunit_digitos d) in Hv. }
    rewrite (cnpj_valido_digits d Hlen Hdig Hrep) in Hv.
    injection Hv as Hv. by apply String.eqb_eq in Hv.
  - intros (Hlen & Hrep & Hsuf).
    rewrite (cnpj_valido_digits d Hlen Hdig Hrep). f_equal.
    by apply String.eqb_eq.
Qed.

Lemma cnpj_valido_aceita_witness :
  cnpj_valido "11.222.333/0001-81" = Some true
  ∧ cnpj_valido "11.222.333/0001-80" = Some false.
Proof.
  split.
  - apply (proj2 (cnpj_valido_aceita "11.222.333/0001-81" eq_refl)).
    split; [reflexivity | split; [exact not_repunit_fixture | reflexivity]].
  - destruct (cnpj_valido "11.222.333/0001-80") as [[|]|] eqn:Hv;
      [| reflexivity | vm_compute in Hv; discriminate].
    apply (proj1 (cnpj_valido_aceita "11.222.333/0001-80" eq_refl)) in Hv
      as (_ & _ & Hsuf).
    vm_compute in Hsuf. discriminate.
Defined.

(** X5. A base of twelve digits has one completion: followed by two digits
    it is accepted exactly when these are its two check digits and the 14
    digits are not all the same. *)
Theorem cnpj_valido_completa (b t : string) :
  String.length b = 12%nat → all_chars Py.is_digit b = true →
  String.length t = 2%nat → all_chars Py.is_digit t = true →
  cnpj_valido (b +:+ t) = Some true
  ↔ t = Spec.check_digits b ∧ ¬ repunit (b +:+ t).
Proof.
  intros Hb Hdb Ht Hdt.
  assert (String.length (b +:+ t) = 14%nat) as Hlen
    by (rewrite length_app_string; lia).
  assert (all_chars Py.is_digit (b +:+ t) = true) as Hdig
    by (by rewrite all_chars_app, Hdb, Hdt).
  assert (Py.suffix 2 (b +:+ t) = t) as Hsuf.
  { unfold Py.suffix. rewrite Hlen. change (14 - 2)%nat with 12%nat.
    rewrite <- Hb. apply skip_app_length. }
  assert (Spec.check_digits (b +:+ t) = Spec.check_digits b) as Hcd.
  { rewrite <- (check_digits_prefix (b +:+ t)), <- Hb.
    by rewrite prefix_app_length. }
  split.
  - intros Hv.
    assert (¬ repunit (b +:+ t)) as Hrep.
    { intros Hrep. by rewrite (cnpj_valido_repunit_digitos _ Hlen Hdig Hrep) in Hv. }
    rewrite (cnpj_valido_digits _ Hlen Hdig Hrep), Hsuf, Hcd in Hv.
    injection Hv as Hv. by apply String.eqb_eq in Hv.
  - intros [-> Hrep].
    rewrite (cnpj_valido_digits _ Hlen Hdig Hrep), Hsuf, Hcd.
    by rewrite String.eqb_refl.
Qed.

Lemma cnpj_valido_completa_witness :
  cnpj_valido "11222333000181" = Some true
  ↔ "81" = Spec.check_digits "112223330001" ∧ ¬ repunit "11222333000181".
Proof.
  exact (cnpj_valido_completa "112223330001" "81"
           eq_refl eq_refl eq_refl eq_refl).
Defined.

(* ===================================================================== *)
(** * Registry client: the address, the 200 branch, failures, the trace *)
(* ===================================================================== *)

Lemma texto_ou_falso_false v :
  texto_ou_falso v = false → truthy v = true ∧ as_str v = None.
Proof.
  destruct v; simpl; try done; intros H%negb_false_iff; by rewrite ?H.
Qed.

Lemma join_json_cases sep l :
  (∃ s, join_json sep l = Ok s) ∨ join_json sep l = Raise TypeError.
Proof. unfold join_json. destruct (mapM as_str l); [left; by eexists | by right]. Qed.

Lemma join_json_raise sep (l : list json) v :
  v ∈ l → as_str v = None → join_json sep l = Raise TypeError.
Proof.
  intros Hin Hv. unfold join_json.
  destruct (mapM as_str l) as [ss|] eqn:Hm; [| done].
  exfalso. assert (is_Some (mapM as_str l)) as Hs by (by eexists).
  apply mapM_is_Some_1 in Hs. rewrite Forall_forall in Hs.
  destruct (Hs v Hin) as [? Hsome]. simpl in Hsome. congruence.
Qed.

Lemma forallb_false_elem {X} (p : X → bool) (l : list X) :
  forallb p l = false → ∃ x, x ∈ l ∧ p x = false.
Proof.
  induction l as [|x l IH]; simpl; [done |].
  destruct (p x) eqn:Hx; simpl.
  - intros (y & Hy & Hpy)%IH. exists y. split; [by right | done].
  - intros _. exists x. split; [by left | done].
Qed.

Section ClientExtras.

Context {World : Type}.
Variable requests_get : string → World → Reply * World.
Variable py_format : json → string.

Abbreviation loop := (consulta_loop requests_get py_format).
Abbreviation consulta := (consulta_brasilapi requests_get py_format).
Abbreviation desfecho := (desfecho_tentativa requests_get py_format).

(** X6. [_endereco_formatado] returns a text exactly when each of the six
    fields street, number, complement, district, city and state is a text or
    a value that [if x:] skips (missing, [None], [0], empty); when one of
    them is anything else (a number, say) the [join] raises [TypeError].  The
    postal code may be of any type.  With no field at all the result is the
    empty text. *)
Theorem endereco_formatado_tipos (d : list (string * json)) :
  let regular :=
    forallb (λ k, texto_ou_falso (dict_get d k (JStr ""))) campos_de_endereco in
  (if regular
   then ∃ s, _endereco_formatado py_format d = Ok s
   else _endereco_formatado py_format d = Raise TypeError)
  ∧ _endereco_formatado py_format [] = Ok "".
Proof.
  intros regular. split; [| done].
  destruct regular eqn:Hreg; [by apply endereco_regular |].
  apply forallb_false_elem in Hreg as (k & Hk & Hbad).
  apply texto_ou_falso_false in Hbad as [Htruthy Hstr].
  unfold _endereco_formatado.
  assert (k ∈ ["logradouro"; "numero"; "complemento"; "bairro"]
          ∨ k ∈ ["municipio"; "uf"]) as [Hk4 | Hk2].
  { unfold campos_de_endereco in Hk.
    repeat (apply elem_of_cons in Hk as [-> | Hk]);
      [left | left | left | left | right | right |];
      try (repeat constructor); by apply elem_of_nil in Hk. }
  - destruct (join_json_cases " - "
      (filter (λ p, truthy p = true)
         [dict_get d "municipio" (JStr ""); dict_get d "uf" (JStr "")]))
      as [[cidade_uf ->] | ->]; [| done].
    simpl res_bind. apply (join_json_raise _ _ (dict_get d k (JStr ""))); [| done].
    apply list_elem_of_filter. split; [done |].
    apply elem_of_app. left. apply elem_of_app. left.
    apply list_elem_of_filter. split; [done |].
    repeat (apply elem_of_cons in Hk4 as [-> | Hk4]);
      [by left | by right; left | by right; right; left
      | by right; right; right; left | by apply elem_of_nil in Hk4].
  - rewrite (join_json_raise " - " _ (dict_get d k (JStr ""))); [done | | done].
    apply list_elem_of_filter. split; [done |].
    repeat (apply elem_of_cons in Hk2 as [-> | Hk2]);
      [by left | by right; left | by apply elem_of_nil in Hk2].
Qed.

(** X7. A 200 whose body decodes ends the lookup after that one request,
    without a sleep, with what the success branch makes of the body.  A body
    that is empty or missing ([None], [{}], [[]], [0], [""], [False]) gives
    the record with every field blank, the name included.  A body that is
    something else than a JSON object (a list, a text, a number) raises
    [AttributeError], and an exception of [_endereco_formatado] is passed on:
    both escape [consulta_brasilapi]. *)
Theorem consulta_200 cnpj (st : St World) r w' v :
  requests_get (url_de cnpj) (world st) = (Responded r, w') →
  status_code r = 200 →
  json_result r = JsonValue v →
  consulta cnpj st =
    (monta_registro py_format cnpj v,
     {| world := w';
        trace := trace st ++ [EvConsulta cnpj; EvGet (url_de cnpj)] |})
  ∧ (truthy v = false →
     monta_registro py_format cnpj v = Ok (registro_vazio cnpj ""))
  ∧ (truthy v = true → (∀ d, v ≠ JDict d) →
     monta_registro py_format cnpj v = Raise AttributeError)
  ∧ (∀ d e, v = JDict d → d ≠ [] →
       _endereco_formatado py_format d = Raise e →
       monta_registro py_format cnpj v = Raise e).
Proof.
  intros Hget H200 Hv. split; [| split; [| split]].
  - unfold consulta_brasilapi, bind at 1, emit.
    rewrite (consulta_loop_step requests_get py_format MAX_RETRIES cnpj 0
               {| world := world st; trace := trace st ++ [EvConsulta cnpj] |}
               _ _ Hget).
    rewrite H200, Hv. unfold apos_get. simpl. by rewrite <- app_assoc.
  - intros Hfalso. unfold monta_registro, py_or at 1. by rewrite Hfalso.
  - intros Hverd Hnd. unfold monta_registro, py_or at 1. rewrite Hverd.
    destruct v; try done. by destruct (Hnd items).
  - intros d e -> Hd Hend. unfold monta_registro, py_or at 1.
    assert (truthy (JDict d) = true) as -> by (by destruct d).
    rewrite Hend.
    by destruct (py_or (dict_get d "cnaes_secundarios" JNull) (JList []))
      as [| | | | |[|[| | | | | |sec0] ?]|].
Qed.

(** X8. The attempt counter is one for all kinds of failure.  After
    [MAX_RETRIES] replies that each called for another attempt (a retryable
    status, a transport failure, or a 200 whose decoding raises a
    [RequestException], in any mix), one more transport failure, or one more
    such 200, ends the lookup with the all-empty record named
    "Erro de rede: " and the description of that last failure; the trace is
    [MAX_RETRIES] requests each followed by its back-off sleep, and the last
    request. *)
Theorem consulta_falha_de_rede cnpj (st : St World) reps w3 ultima w' e :
  respostas requests_get MAX_RETRIES (url_de cnpj) (world st) = (reps, w3) →
  forallb repete reps = true →
  requests_get (url_de cnpj) w3 = (ultima, w') →
  ultima = TransportError e
  ∨ (∃ r, ultima = Responded r ∧ status_code r = 200
          ∧ json_result r = JsonRaises true e) →
  consulta cnpj st =
    (Ok (registro_vazio cnpj ("Erro de rede: " +:+ e)),
     {| world := w';
        trace := trace st ++ EvConsulta cnpj
                   :: tentativas_falhas (url_de cnpj) 0 MAX_RETRIES
                   ++ [EvGet (url_de cnpj)] |}).
Proof.
  intros Hreps Hrep Hget Hult.
  unfold consulta_brasilapi, bind at 1, emit.
  change (S MAX_RETRIES) with (MAX_RETRIES + 1)%nat.
  rewrite (consulta_loop_falhas requests_get py_format MAX_RETRIES 1 cnpj 0
             {| world := world st; trace := trace st ++ [EvConsulta cnpj] |}
             reps w3 Hreps Hrep) by done.
  cbn [trace world].
  rewrite (consulta_loop_step requests_get py_format 0 cnpj (0 + MAX_RETRIES)
             {| world := w3;
                trace := (trace st ++ [EvConsulta cnpj])
                         ++ tentativas_falhas (url_de cnpj) 0 MAX_RETRIES |}
             _ _ Hget).
  assert (desfecho 0 cnpj (0 + MAX_RETRIES)
            {| world := w3;
               trace := (trace st ++ [EvConsulta cnpj])
                        ++ tentativas_falhas (url_de cnpj) 0 MAX_RETRIES |}
            w' ("Erro de rede: " +:+ e)
          = (Ok (registro_vazio cnpj ("Erro de rede: " +:+ e)),
             {| world := w';
                trace := trace st ++ EvConsulta cnpj
                           :: tentativas_falhas (url_de cnpj) 0 MAX_RETRIES
                           ++ [EvGet (url_de cnpj)] |})) as Hfim.
  { unfold desfecho_tentativa, apos_get. simpl. do 2 f_equal.
    by rewrite <- !app_assoc. }
  destruct Hult as [-> | (r & -> & H200 & Hjson)]; [exact Hfim |].
  by rewrite H200, Hjson.
Qed.

(** The trace of the loop: some failed attempts with their sleeps, within
    the budget, then one last request. *)
Lemma consulta_loop_trace fuel : ∀ cnpj t (st : St World),
  (t ≤ MAX_RETRIES)%nat → (MAX_RETRIES < t + fuel)%nat →
  ∃ k, (t + k ≤ MAX_RETRIES)%nat
       ∧ trace (loop fuel cnpj t st).2
         = trace st ++ tentativas_falhas (url_de cnpj) t k ++ [EvGet (url_de cnpj)].
Proof.
  induction fuel as [|fuel IH]; intros cnpj t st Ht Hfuel; [lia |].
  destruct (requests_get (url_de cnpj) (world st)) as [rep w'] eqn:Hget.
  rewrite (consulta_loop_step _ _ _ _ _ _ _ _ Hget).
  assert (∀ r0 : Res LookupResult,
    ∃ k, (t + k ≤ MAX_RETRIES)%nat
         ∧ trace (r0, apos_get cnpj st w').2
           = trace st ++ tentativas_falhas (url_de cnpj) t k
               ++ [EvGet (url_de cnpj)]) as Hfinal.
  { intros r0. exists 0%nat. split; [lia | done]. }
  assert (∀ d,
    ∃ k, (t + k ≤ MAX_RETRIES)%nat
         ∧ trace (desfecho fuel cnpj t st w' d).2
           = trace st ++ tentativas_falhas (url_de cnpj) t k
               ++ [EvGet (url_de cnpj)]) as Hnova.
  { intros d. unfold desfecho_tentativa.
    destruct (Nat.ltb_spec MAX_RETRIES (S t)); [apply Hfinal |].
    destruct (IH cnpj (S t) (apos_espera cnpj t st w')) as (k & Hk & Htr);
      [lia | lia |].
    exists (S k). split; [lia |]. rewrite Htr. unfold apos_espera. simpl.
    by rewrite <- app_assoc. }
  destruct rep as [r | e]; [| apply Hnova].
  destruct (status_code r =? 200).
  { destruct (json_result r) as [v | [] e];
      [apply Hfinal | apply Hnova | apply Hfinal]. }
  destruct (status_code r =? 404); [apply Hfinal |].
  destruct (status_retentavel (status_code r)); [apply Hnova | apply Hfinal].
Qed.

(** X9. Whatever the registry does, a lookup ends, and its trace is the mark
    of the call, then [k <= MAX_RETRIES] requests each followed by its
    back-off sleep, then one last request, all for the URL of the
    identifier: between 1 and [MAX_RETRIES + 1] requests, and sleeps
    [espera 1], ..., [espera k] and no other. *)
Theorem consulta_trace cnpj (st : St World) :
  (consulta cnpj st).1 ≠ Diverge
  ∧ ∃ k, (k ≤ MAX_RETRIES)%nat
         ∧ trace (consulta cnpj st).2
           = trace st ++ EvConsulta cnpj
               :: tentativas_falhas (url_de cnpj) 0 k ++ [EvGet (url_de cnpj)]
         ∧ sleeps (tentativas_falhas (url_de cnpj) 0 k ++ [EvGet (url_de cnpj)])
           = map espera (seq 1 k).
Proof.
  split; [apply consulta_brasilapi_termina |].
  unfold consulta_brasilapi, bind at 1, emit.
  destruct (consulta_loop_trace (S MAX_RETRIES) cnpj 0
              {| world := world st; trace := trace st ++ [EvConsulta cnpj] |})
    as (k & Hk & Htr); [lia | lia |].
  exists k. split; [lia |]. split.
  - rewrite Htr. simpl. by rewrite <- app_assoc.
  - rewrite sleeps_app, sleeps_tentativas_falhas.
    change (sleeps [EvGet (url_de cnpj)]) with (@nil Q).
    by rewrite app_nil_r.
Qed.

(** The records the loop returns. *)
Lemma consulta_loop_registros fuel : ∀ cnpj t (st : St World) reg st',
  loop fuel cnpj t st = (Ok reg, st') →
  (∃ nome, reg = registro_vazio cnpj nome ∧ comeca_com_erro nome = true)
  ∨ (∃ w r w'' v,
       requests_get (url_de cnpj) w = (Responded r, w'')
       ∧ status_code r = 200 ∧ json_result r = JsonValue v
       ∧ monta_registro py_format cnpj v = Ok reg).
Proof.
  induction fuel as [|fuel IH]; intros cnpj t st reg st' Hrun; [done |].
  destruct (requests_get (url_de cnpj) (world st)) as [rep w'] eqn:Hget.
  rewrite (consulta_loop_step _ _ _ _ _ _ _ _ Hget) in Hrun.
  assert (∀ d, comeca_com_erro d = true →
               desfecho fuel cnpj t st w' d = (Ok reg, st') →
    (∃ nome, reg = registro_vazio cnpj nome ∧ comeca_com_erro nome = true)
    ∨ (∃ w r w'' v,
         requests_get (url_de cnpj) w = (Responded r, w'')
         ∧ status_code r = 200 ∧ json_result r = JsonValue v
         ∧ monta_registro py_format cnpj v = Ok reg)) as Hnova.
  { intros d Hd. unfold desfecho_tentativa.
    destruct (MAX_RETRIES <? S t)%nat; [| apply IH].
    intros [= <- <-]. left. by exists d. }
  destruct rep as [r | e]; [| by apply (Hnova ("Erro de rede: " +:+ e))].
  destruct (Z.eqb_spec (status_code r) 200) as [H200 | _].
  { destruct (json_result r) as [v | [] e] eqn:Hjson;
      [| by apply (Hnova ("Erro de rede: " +:+ e)) | done].
    injection Hrun as Hreg <-. right. by exists (world st), r, w', v. }
  destruct (status_code r =? 404).
  { injection Hrun as <- <-. left. by eexists. }
  destruct (status_retentavel (status_code r)).
  - by apply (Hnova ("Erro após retries: " +:+ mensagem py_format "" (http_de r) r)).
  - injection Hrun as <- <-. left. by eexists.
Qed.

(** X10. A record that [consulta_brasilapi] returns is keyed by the
    identifier asked for, and is of one of two kinds: an all-empty record
    whose name starts with "Erro" or "Não encontrado", which the summary
    counts as an error, or the record built from the body of a 200 reply the
    registry gave for that identifier. *)
Theorem consulta_registros cnpj (st : St World) reg st' :
  consulta cnpj st = (Ok reg, st') →
  CNPJ reg = cnpj
  ∧ ((∃ nome, reg = registro_vazio cnpj nome ∧ comeca_com_erro nome = true)
     ∨ (∃ w r w'' v,
          requests_get (url_de cnpj) w = (Responded r, w'')
          ∧ status_code r = 200 ∧ json_result r = JsonValue v
          ∧ monta_registro py_format cnpj v = Ok reg)).
Proof.
  unfold consulta_brasilapi, bind at 1, emit. intros Hrun. split.
  - by apply (consulta_loop_efeitos requests_get py_format _ _ _ _ _ _ Hrun).
  - by apply (consulta_loop_registros _ _ _ _ _ _ Hrun).
Qed.

End ClientExtras.

(* ===================================================================== *)
(** * The lookup loop and the run: steps, order, flags, tables without a
      valid identifier *)
(* ===================================================================== *)

Lemma consultas_de_app a b : consultas_de (a ++ b) = consultas_de a ++ consultas_de b.
Proof. apply omap_app. Qed.

Lemma consultas_de_nenhuma evs :
  Forall (λ ev, ∀ c, is_consulta c ev = false) evs → consultas_de evs = [].
Proof.
  induction 1 as [|ev evs Hev _ IH]; [done |].
  change (ev :: evs) with ([ev] ++ evs). rewrite consultas_de_app, IH.
  destruct ev as [c | |]; try done.
  specialize (Hev c). simpl in Hev. by rewrite String.eqb_refl in Hev.
Qed.

Section RunExtras.

Context {World : Type}.
Variable requests_get : string → World → Reply * World.
Variable py_format : json → string.

Abbreviation consulta := (consulta_brasilapi requests_get py_format).
Abbreviation um_passo := (passo requests_get py_format).
Abbreviation laco := (consultas requests_get py_format).
Abbreviation roda := (processa requests_get py_format).

Lemma consulta_eq cnpj (st : St World) :
  consulta cnpj st =
    consulta_loop requests_get py_format (S MAX_RETRIES) cnpj 0
      {| world := world st; trace := trace st ++ [EvConsulta cnpj] |}.
Proof. reflexivity. Qed.

(** An invalid identifier: the synthetic record, one more in [inval], and
    nothing done to the outside. *)
Lemma passo_invalido est cnpj (st : St World) :
  e_invalido cnpj = true →
  um_passo est cnpj st =
    (Ok {| resultados_map := <[cnpj := registro_invalido cnpj]> (resultados_map est);
           ok := ok est; inval := S (inval est); err := err est |}, st).
Proof.
  intros Hinv. unfold passo, bind at 1, lift at 1.
  by rewrite chama_cnpj_valido_total, Hinv.
Qed.

(** X11. One step of the loop for a valid identifier that the registry
    answers at once with a 200 from which a record with a text name is built:
    one request, the record stored under the identifier, one pause of
    [SLEEP_ENTRE_CHAMADAS] afterwards, and one counter raised.  The name
    alone picks the counter: [err] when it starts with "Erro" or
    "Não encontrado", though the registry answered 200, and [ok] otherwise,
    an empty name included. *)
Theorem passo_200 est cnpj (st : St World) r w' v reg nome :
  e_invalido cnpj = false →
  requests_get (url_de cnpj) (world st) = (Responded r, w') →
  status_code r = 200 →
  json_result r = JsonValue v →
  monta_registro py_format cnpj v = Ok reg →
  razao_social reg = JStr nome →
  um_passo est cnpj st =
    (Ok (conta_nome est cnpj reg nome),
     {| world := w';
        trace := trace st ++ [EvConsulta cnpj; EvGet (url_de cnpj);
                              EvSleep SLEEP_ENTRE_CHAMADAS] |})
  ∧ comeca_com_erro "" = false.
Proof.
  intros Hval Hget H200 Hv Hreg Hnome. split; [| done].
  unfold passo, bind at 1, lift at 1.
  rewrite chama_cnpj_valido_total, Hval. cbn [negb].
  unfold bind at 1. rewrite consulta_eq.
  rewrite (consulta_loop_step requests_get py_format MAX_RETRIES cnpj 0
             {| world := world st; trace := trace st ++ [EvConsulta cnpj] |}
             _ _ Hget).
  rewrite H200, Hv. simpl. unfold lift. rewrite Hreg, Hnome.
  unfold bind, sleep, emit, ret, apos_get, conta_nome. simpl.
  rewrite <- !app_assoc. simpl.
  by destruct (comeca_com_erro nome).
Qed.

(** The loop in a completed run: the calls it made, in order. *)
Lemma consultas_ordem unicos : ∀ est (st : St World) est' st',
  laco unicos est st = (Ok est', st') →
  ∃ evs, trace st' = trace st ++ evs
         ∧ consultas_de evs = filter (λ c, e_invalido c = false) unicos.
Proof.
  induction unicos as [|cnpj resto IH]; intros est st est' st' Hrun.
  { injection Hrun as <- <-. exists []. by rewrite app_nil_r. }
  cbn [consultas] in Hrun. unfold bind at 1 in Hrun.
  destruct (um_passo est cnpj st) as [[est1 | e |] st1] eqn:Hpasso;
    [| done | done].
  apply IH in Hrun as (evs2 & Htr2 & Hc2).
  destruct (e_invalido cnpj) eqn:Hinv.
  - rewrite passo_invalido in Hpasso by done. injection Hpasso as <- <-.
    exists evs2. split; [done |]. by rewrite filter_cons_False by congruence.
  - unfold passo, bind at 1, lift at 1 in Hpasso.
    rewrite chama_cnpj_valido_total, Hinv in Hpasso.
    cbn [negb] in Hpasso.
    unfold bind at 1 in Hpasso. rewrite consulta_eq in Hpasso.
    destruct (consulta_loop _ _ _ _ _ _) as [[reg | e |] st0] eqn:Hloop;
      [| done | done].
    apply consulta_loop_efeitos in Hloop as [(evs0 & Htr0 & Hev0) _].
    simpl in Htr0.
    destruct (razao_social reg) as [| | | |nome| |]; try done.
    unfold bind, sleep, emit, ret in Hpasso. injection Hpasso as _ <-.
    exists ([EvConsulta cnpj] ++ evs0 ++ [EvSleep SLEEP_ENTRE_CHAMADAS] ++ evs2).
    split.
    + rewrite Htr2. cbn [trace]. rewrite Htr0. by rewrite <- !app_assoc.
    + rewrite !consultas_de_app, (consultas_de_nenhuma evs0 Hev0), Hc2.
      by rewrite filter_cons_True by done.
Qed.

(** The loop stores the synthetic record for each invalid identifier. *)
Lemma consultas_invalidos unicos : ∀ est (st : St World) est' st',
  NoDup unicos →
  laco unicos est st = (Ok est', st') →
  ∀ c, c ∈ unicos → e_invalido c = true →
       resultados_map est' !! c = Some (registro_invalido c).
Proof.
  induction unicos as [|cnpj resto IH]; intros est st est' st' Hnd Hrun c Hc Hinv.
  { by apply elem_of_nil in Hc. }
  apply NoDup_cons in Hnd as [Hfresh Hnd].
  cbn [consultas] in Hrun. unfold bind at 1 in Hrun.
  destruct (um_passo est cnpj st) as [[est1 | e |] st1] eqn:Hpasso;
    [| done | done].
  apply elem_of_cons in Hc as [-> | Hc]; [| by eapply IH].
  rewrite passo_invalido in Hpasso by done. injection Hpasso as <- <-.
  apply consultas_spec in Hrun as [_ Hest]; [| done].
  destruct (Hest est' eq_refl) as (_ & Hkeep & _).
  rewrite (Hkeep cnpj Hfresh). apply lookup_insert_eq.
Qed.

(** X12. In a completed run the registry client is called for exactly the
    distinct normalised identifiers that pass validation, once each, in
    ascending order of the identifier. *)
Theorem processa_ordem {A} (df : list (option string * A)) (st : St World)
    out st' :
  roda df st = (Ok out, st') →
  let unicos := lista_unicos (map (λ entrada, normaliza_cnpj entrada.1) df) in
  (∃ evs, trace st' = trace st ++ evs
          ∧ consultas_de evs = filter (λ c, e_invalido c = false) unicos)
  ∧ StronglySorted String.le unicos
  ∧ NoDup unicos
  ∧ (∀ c, c ∈ unicos ↔ ∃ entrada, entrada ∈ df ∧ c = normaliza_cnpj entrada.1).
Proof.
  intros Hrun unicos.
  apply processa_inv in Hrun as (df1 & r1 & Hpre & Hlaco & Hout).
  destruct (Hout out eq_refl) as (-> & _ & _).
  assert (map coluna_cnpj df1 = map (λ entrada, normaliza_cnpj entrada.1) df)
    as Hids.
  { clear Hlaco Hout. induction Hpre as [|e l df df1 (Hc & _) _ IH]; [done |].
    simpl. by rewrite Hc, IH. }
  rewrite Hids in Hlaco. fold unicos in Hlaco.
  split; [by eapply consultas_ordem |]. split; [| split].
  - apply Sorted_StronglySorted; [apply _ | apply lista_unicos_sorted].
  - apply lista_unicos_NoDup.
  - intros c. unfold unicos. rewrite elem_of_lista_unicos, list_elem_of_fmap.
    split; intros (e & ? & ?); by exists e.
Qed.

(** X13. In a completed run the validity flag of every output row is the
    validator's answer on the row's normalised identifier, whatever the
    registry replied; and a row flagged invalid carries the synthetic record
    named "CNPJ inválido (DV)", every other field blank. *)
Theorem processa_flag {A} (df : list (option string * A)) (st : St World)
    out st' :
  roda df st = (Ok out, st') →
  ∀ i cel resto, df !! i = Some (cel, resto) →
    ∃ row, df_final out !! i = Some row
      ∧ cnpj_valido (normaliza_cnpj cel) = Some (_CNPJ_VALIDO (linha row))
      ∧ (_CNPJ_VALIDO (linha row) = false →
         resultado row
         = Some (registro_vazio (normaliza_cnpj cel) "CNPJ inválido (DV)")).
Proof.
  intros Hrun i cel resto Hi.
  apply processa_inv in Hrun as (df1 & r1 & Hpre & Hlaco & Hout).
  destruct (Hout out eq_refl) as (-> & _ & Hfinal).
  destruct (Forall2_lookup_l _ _ _ _ _ Hpre Hi) as (l & Hl & Hcnpj & _ & Hflag).
  simpl in Hcnpj.
  exists (linha_final (resultados_map (resumo out)) l).
  rewrite Hfinal, list_lookup_fmap, Hl. split; [done |].
  rewrite <- Hcnpj. split; [done |].
  intros Hfalse. unfold linha_final. simpl.
  apply (consultas_invalidos _ _ _ _ _ (lista_unicos_NoDup _) Hlaco).
  - apply elem_of_lista_unicos, list_elem_of_fmap. exists l.
    split; [done |]. by eapply list_elem_of_lookup_2.
  - unfold e_invalido. simpl in Hflag. rewrite Hflag. simpl in Hfalse.
    by rewrite Hfalse.
Qed.

(** The loop over identifiers that are all invalid. *)
Lemma consultas_todos_invalidos unicos : ∀ est (st : St World),
  Forall (λ c, e_invalido c = true) unicos →
  ∃ est', laco unicos est st = (Ok est', st)
          ∧ ok est' = ok est ∧ err est' = err est
          ∧ inval est' = (inval est + length unicos)%nat.
Proof.
  induction unicos as [|cnpj resto IH]; intros est st Hall.
  { exists est. repeat split; simpl; lia. }
  apply Forall_cons in Hall as [Hinv Hall].
  cbn [consultas]. unfold bind at 1. rewrite passo_invalido by done.
  destruct (IH {| resultados_map :=
                    <[cnpj := registro_invalido cnpj]> (resultados_map est);
                  ok := ok est; inval := S (inval est); err := err est |}
              st Hall) as (est' & -> & Hok & Herr & Hinval).
  exists est'. simpl in *. repeat split; try done. lia.
Qed.

(** X14. A table in which no identifier passes validation is processed
    without touching the registry, whatever the registry is: the run
    completes with the registry and the trace as they were, no request and
    no sleep; the summary counts no success and no error, and as many
    invalid as there are distinct identifiers. *)
Theorem processa_sem_validos {A} (df : list (option string * A)) (st : St World) :
  df ≠ [] →
  (∀ entrada, entrada ∈ df → e_invalido (normaliza_cnpj entrada.1) = true) →
  ∃ out, roda df st = (Ok out, st)
    ∧ ok (resumo out) = 0%nat ∧ err (resumo out) = 0%nat
    ∧ inval (resumo out)
      = size (list_to_set (map (λ entrada, normaliza_cnpj entrada.1) df)
                : gset string).
Proof.
  intros Hdf Hinv. unfold processa, bind at 1, lift at 1.
  destruct (pre_processa_spec df) as (df1 & -> & Hpre).
  assert (map coluna_cnpj df1 = map (λ entrada, normaliza_cnpj entrada.1) df)
    as Hids.
  { clear Hdf Hinv. induction Hpre as [|e l df df1 (Hc & _) _ IH]; [done |].
    simpl. by rewrite Hc, IH. }
  unfold bind at 1. rewrite Hids.
  set (unicos := lista_unicos (map (λ entrada, normaliza_cnpj entrada.1) df)).
  destruct (consultas_todos_invalidos unicos contagem_inicial st)
    as (est & Hlaco & Hok & Herr & Hinval).
  { apply Forall_forall. intros c Hc.
    apply elem_of_lista_unicos, list_elem_of_fmap in Hc as (e & -> & He).
    by apply Hinv. }
  rewrite Hlaco.
  pose proof Hlaco as Hspec.
  apply consultas_spec in Hspec as [_ Hest]; [| apply lista_unicos_NoDup].
  destruct (Hest est eq_refl) as (_ & _ & Hnew & _).
  destruct (df_result_total (resultados_map est) unicos) as [direita Hdir].
  { intros c Hc. destruct (Hnew c Hc) as (r & -> & _). by eexists. }
  unfold bind, lift, ret. rewrite Hdir.
  apply df_result_inv in Hdir.
  destruct direita as [|r0 direita'].
  { exfalso. apply Forall2_nil_inv_r in Hdir.
    destruct df as [|entrada df']; [done |].
    assert (normaliza_cnpj entrada.1 ∈ unicos) as Hin
      by (apply elem_of_lista_unicos; left).
    rewrite Hdir in Hin. by apply elem_of_nil in Hin. }
  simpl. eexists. split; [done |]. simpl.
  split; [done |]. split; [done |].
  rewrite Hinval. simpl. apply length_lista_unicos.
Qed.

End RunExtras.

(* ===================================================================== *)
(** * The formatted address of a body whose fields are texts *)
(* ===================================================================== *)

Section AddressExtras.

Variable py_format : json → string.

(** X15. When the seven address fields are texts (a missing one counts as
    the empty text), the formatted address is the non-empty ones among
    street, number, complement, district, then "city - state" (either side
    alone when the other is empty), then "CEP " and the postal code, joined
    by ", ": no empty component and no separator left dangling. *)
Theorem endereco_formatado_textos (d : list (string * json))
    (log num comp bairro mun uf cep : string) :
  dict_get d "logradouro" (JStr "") = JStr log →
  dict_get d "numero" (JStr "") = JStr num →
  dict_get d "complemento" (JStr "") = JStr comp →
  dict_get d "bairro" (JStr "") = JStr bairro →
  dict_get d "municipio" (JStr "") = JStr mun →
  dict_get d "uf" (JStr "") = JStr uf →
  dict_get d "cep" (JStr "") = JStr cep →
  _endereco_formatado py_format d =
    Ok (Py.join ", "
          (filter (λ p, nonempty p = true)
             [log; num; comp; bairro;
              Py.join " - " (filter (λ p, nonempty p = true) [mun; uf]);
              if nonempty cep then "CEP " +:+ cep else ""])).
Proof.
  intros Hlog Hnum Hcomp Hbairro Hmun Huf Hcep.
  unfold _endereco_formatado.
  rewrite Hlog, Hnum, Hcomp, Hbairro, Hmun, Huf, Hcep.
  destruct log, num, comp, bairro, mun, uf, cep; reflexivity.
Qed.

End AddressExtras.

(* ===================================================================== *)
(** * Worked cases for the further properties *)
(* ===================================================================== *)

Lemma consulta_200_witness :
  consulta_brasilapi (sempre (resposta 200 JNull)) format_escalar fixture inicio
  = (Ok (registro_vazio fixture ""),
     {| world := 1%nat; trace := [EvConsulta fixture; EvGet (url_de fixture)] |}).
Proof.
  destruct (consulta_200 (sempre (resposta 200 JNull)) format_escalar fixture
              inicio _ _ JNull eq_refl eq_refl eq_refl) as (Hrun & Hvazio & _).
  rewrite Hrun, (Hvazio eq_refl). reflexivity.
Defined.

Lemma consulta_falha_de_rede_witness :
  (consulta_brasilapi (sempre (TransportError "Read timed out")) format_escalar
     fixture inicio).1
  = Ok (registro_vazio fixture "Erro de rede: Read timed out").
Proof.
  rewrite (consulta_falha_de_rede (sempre (TransportError "Read timed out"))
             format_escalar fixture inicio _ _ _ _ "Read timed out"
             eq_refl eq_refl eq_refl (or_introl eq_refl)).
  reflexivity.
Defined.

Lemma consulta_registros_witness :
  ∃ reg st',
    consulta_brasilapi registro_constante format_escalar fixture inicio
    = (Ok reg, st')
    ∧ CNPJ reg = fixture.
Proof.
  eexists _, _. split; [reflexivity |].
  exact (proj1 (consulta_registros registro_constante format_escalar fixture
                  inicio _ _ eq_refl)).
Defined.

Lemma passo_200_witness :
  ∃ est st',
    passo (sempre (resposta 200 empresa_erro)) format_escalar contagem_inicial
      fixture inicio = (Ok est, st')
    ∧ err est = 1%nat ∧ ok est = 0%nat.
Proof.
  pose proof (passo_200 (sempre (resposta 200 empresa_erro)) format_escalar
                contagem_inicial fixture inicio _ _ empresa_erro _ _
                eq_refl eq_refl eq_refl eq_refl eq_refl eq_refl) as [Hrun _].
  eexists _, _. split; [exact Hrun |]. split; reflexivity.
Defined.

Lemma processa_ordem_witness :
  ∃ out st',
    processa registro_constante format_escalar tabela_mista inicio = (Ok out, st')
    ∧ ∃ evs, trace st' = trace inicio ++ evs
        ∧ consultas_de evs
          = filter (λ c, e_invalido c = false)
              (lista_unicos (map (λ entrada, normaliza_cnpj entrada.1) tabela_mista)).
Proof.
  destruct (processa_regular registro_constante format_escalar tabela_mista
              inicio registro_constante_regular) as (out & st' & Hrun);
    [discriminate |].
  exists out, st'. split; [exact Hrun |].
  exact (proj1 (processa_ordem registro_constante format_escalar tabela_mista
                  inicio out st' Hrun)).
Defined.

Lemma processa_flag_witness :
  ∃ out st',
    processa registro_constante format_escalar tabela_mista inicio = (Ok out, st')
    ∧ ∃ row, df_final out !! 1%nat = Some row
        ∧ cnpj_valido (normaliza_cnpj (Some "123"))
          = Some (_CNPJ_VALIDO (linha row)).
Proof.
  destruct (processa_regular registro_constante format_escalar tabela_mista
              inicio registro_constante_regular) as (out & st' & Hrun);
    [discriminate |].
  exists out, st'. split; [exact Hrun |].
  destruct (processa_flag registro_constante format_escalar tabela_mista
              inicio out st' Hrun 1%nat (Some "123") 2%nat eq_refl)
    as (row & Hrow & Hflag & _).
  exists row. split; [exact Hrow | exact Hflag].
Defined.

Lemma tabela_invalida_sem_validos entrada :
  entrada ∈ tabela_invalida → e_invalido (normaliza_cnpj entrada.1) = true.
Proof.
  unfold tabela_invalida. intros He.
  repeat (apply elem_of_cons in He as [-> | He]); try reflexivity.
  by apply elem_of_nil in He.
Qed.

Lemma processa_sem_validos_witness :
  ∃ out,
    processa registro_constante format_escalar tabela_invalida inicio
    = (Ok out, inicio)
    ∧ ok (resumo out) = 0%nat ∧ err (resumo out) = 0%nat.
Proof.
  destruct (processa_sem_validos registro_constante format_escalar
              tabela_invalida inicio) as (out & Hrun & Hok & Herr & _);
    [discriminate | exact tabela_invalida_sem_validos |].
  exists out. split; [exact Hrun | split; [exact Hok | exact Herr]].
Defined.

Lemma endereco_formatado_textos_witness :
  match empresa_acme with
  | JDict d =>
      _endereco_formatado format_escalar d
      = Ok "RUA UM, 10, SAO PAULO - SP, CEP 01000000"
  | _ => False
  end.
Proof.
  unfold empresa_acme.
  lazymatch goal with
  | |- _endereco_formatado _ ?d = _ =>
      exact (endereco_formatado_textos format_escalar d "RUA UM" "10" "" ""
               "SAO PAULO" "SP" "01000000"
               eq_refl eq_refl eq_refl eq_refl eq_refl eq_refl eq_refl)
  end.
Defined.
